(** * User-space event consumers of examples/ringbuffer/main.go

    A shallow embedding of the three read loops ([readLoopTcpLatency],
    [readLoopSipMessages], [readLoopTcpClose]), of [intToIP] and of the
    resource handling of [main], together with the parts of the Go
    libraries they rely on ([encoding/binary], [fmt], [errors], [defer]).

    Raw records are lists of bytes, decoded integers are [Z], Go strings
    are [string] (a Go string is a byte sequence, as is a Rocq one), and
    [float64] values are the binary64 instance of [spec_float]. *)

From Stdlib Require Import ZArith List Bool Lia String Ascii.
From Stdlib Require Import Strings.Byte DecimalString.
From Stdlib Require Import Floats.SpecFloat.
Import ListNotations.

Local Open Scope Z_scope.

(** ** Bytes and slices *)

(** [uint32(b)], [uint64(b)]: the value of a byte. *)
Definition u8 (b : byte) : Z := Z.of_N (Byte.to_N b).

(** [byte(v)]: the conversion of an unsigned integer to a byte keeps the low
    eight bits. *)
Definition byte_of_Z (v : Z) : byte :=
  match Byte.of_N (Z.to_N (v mod 256)) with
  | Some b => b
  | None => x00
  end.

(** [b[i]] on a slice known to be long enough; the decoders below only index
    below the length they have checked. *)
Definition idx (b : list byte) (i : nat) : byte := nth i b x00.

(** [b[lo:lo+n]]. *)
Definition slice (b : list byte) (lo n : nat) : list byte :=
  firstn n (skipn lo b).

(** ** encoding/binary: the two byte orders *)

Inductive ByteOrder := LittleEndian | BigEndian.

Module littleEndian.
Definition Uint16 (b : list byte) : Z :=
  Z.lor (u8 (idx b 0)) (Z.shiftl (u8 (idx b 1)) 8).

Definition Uint32 (b : list byte) : Z :=
  Z.lor (Z.lor (Z.lor (u8 (idx b 0)) (Z.shiftl (u8 (idx b 1)) 8))
               (Z.shiftl (u8 (idx b 2)) 16))
        (Z.shiftl (u8 (idx b 3)) 24).

Definition Uint64 (b : list byte) : Z :=
  Z.lor (Z.lor (Z.lor (Z.lor (Z.lor (Z.lor (Z.lor
    (u8 (idx b 0))
    (Z.shiftl (u8 (idx b 1)) 8))
    (Z.shiftl (u8 (idx b 2)) 16))
    (Z.shiftl (u8 (idx b 3)) 24))
    (Z.shiftl (u8 (idx b 4)) 32))
    (Z.shiftl (u8 (idx b 5)) 40))
    (Z.shiftl (u8 (idx b 6)) 48))
    (Z.shiftl (u8 (idx b 7)) 56).

Definition PutUint32 (v : Z) : list byte :=
  [ byte_of_Z v; byte_of_Z (Z.shiftr v 8);
    byte_of_Z (Z.shiftr v 16); byte_of_Z (Z.shiftr v 24) ].
End littleEndian.

Module bigEndian.
Definition Uint16 (b : list byte) : Z :=
  Z.lor (u8 (idx b 1)) (Z.shiftl (u8 (idx b 0)) 8).

Definition Uint32 (b : list byte) : Z :=
  Z.lor (Z.lor (Z.lor (u8 (idx b 3)) (Z.shiftl (u8 (idx b 2)) 8))
               (Z.shiftl (u8 (idx b 1)) 16))
        (Z.shiftl (u8 (idx b 0)) 24).

Definition Uint64 (b : list byte) : Z :=
  Z.lor (Z.lor (Z.lor (Z.lor (Z.lor (Z.lor (Z.lor
    (u8 (idx b 7))
    (Z.shiftl (u8 (idx b 6)) 8))
    (Z.shiftl (u8 (idx b 5)) 16))
    (Z.shiftl (u8 (idx b 4)) 24))
    (Z.shiftl (u8 (idx b 3)) 32))
    (Z.shiftl (u8 (idx b 2)) 40))
    (Z.shiftl (u8 (idx b 1)) 48))
    (Z.shiftl (u8 (idx b 0)) 56).

Definition PutUint32 (v : Z) : list byte :=
  [ byte_of_Z (Z.shiftr v 24); byte_of_Z (Z.shiftr v 16);
    byte_of_Z (Z.shiftr v 8); byte_of_Z v ].
End bigEndian.

(** The methods of the [binary.ByteOrder] interface, dispatched on the
    order. *)
Definition Uint16 (o : ByteOrder) : list byte -> Z :=
  match o with
  | LittleEndian => littleEndian.Uint16
  | BigEndian => bigEndian.Uint16
  end.

Definition Uint32 (o : ByteOrder) : list byte -> Z :=
  match o with
  | LittleEndian => littleEndian.Uint32
  | BigEndian => bigEndian.Uint32
  end.

Definition Uint64 (o : ByteOrder) : list byte -> Z :=
  match o with
  | LittleEndian => littleEndian.Uint64
  | BigEndian => bigEndian.Uint64
  end.

Definition PutUint32 (o : ByteOrder) : Z -> list byte :=
  match o with
  | LittleEndian => littleEndian.PutUint32
  | BigEndian => bigEndian.PutUint32
  end.

(** ** encoding/binary: fixed-size integer kinds

    The integer types [binary.Read] accepts as struct fields. *)
Inductive IntKind :=
| KInt8 | KInt16 | KInt32 | KInt64
| KUint8 | KUint16 | KUint32 | KUint64.

(** Width in bytes ([dataSize] of the kind). *)
Definition kind_size (k : IntKind) : nat :=
  match k with
  | KInt8 | KUint8 => 1
  | KInt16 | KUint16 => 2
  | KInt32 | KUint32 => 4
  | KInt64 | KUint64 => 8
  end%nat.

(** [intN(x)] for an unsigned [x] of [N = 8 * w] bits: reinterpretation as
    two's complement. *)
Definition to_signed (w : nat) (x : Z) : Z :=
  if x <? 2 ^ (8 * Z.of_nat w - 1) then x else x - 2 ^ (8 * Z.of_nat w).

(** [decoder.value] at an integer kind: the bytes of the field are read in
    the decoder's order and converted to the field's type. *)
Definition decode_int (o : ByteOrder) (k : IntKind) (b : list byte) : Z :=
  match k with
  | KUint8 => u8 (idx b 0)
  | KInt8 => to_signed 1 (u8 (idx b 0))
  | KUint16 => Uint16 o b
  | KInt16 => to_signed 2 (Uint16 o b)
  | KUint32 => Uint32 o b
  | KInt32 => to_signed 4 (Uint32 o b)
  | KUint64 => Uint64 o b
  | KInt64 => to_signed 8 (Uint64 o b)
  end.

(** ** Errors

    The error values the loops can meet.  [ErrClosed] is the sentinel both
    [perf.ErrClosed] and [ringbuf.ErrClosed] are bound to; [EOF] and
    [ErrUnexpectedEOF] are those of package [io]; any other error is an
    opaque message, possibly wrapping another error. *)
Inductive error :=
| ErrClosed
| EOF
| ErrUnexpectedEOF
| errorString (s : string)
| wrapError (msg : string) (err : error).

(** [err.Error()], what the verb [%s] prints for an error. *)
Definition Error (err : error) : string :=
  match err with
  | ErrClosed => "file already closed"
  | EOF => "EOF"
  | ErrUnexpectedEOF => "unexpected EOF"
  | errorString s => s
  | wrapError msg _ => msg
  end%string.

(** [errors.Is(err, ErrClosed)]: the chain of wrapped errors is searched for
    the sentinel. *)
Fixpoint errors_Is_ErrClosed (err : error) : bool :=
  match err with
  | ErrClosed => true
  | wrapError _ inner => errors_Is_ErrClosed inner
  | _ => false
  end.

(** ** encoding/binary: reading a fixed-size value

    [binary.Read(bytes.NewBuffer(raw), order, &v)] for a [v] of [size] bytes
    first fills a buffer of [size] bytes with [io.ReadFull] and only then
    decodes into [v]: on a short record [v] is left untouched. *)
Definition io_ReadFull (r : list byte) (size : nat) : error + list byte :=
  if (size =? 0)%nat then inr []
  else if (List.length r =? 0)%nat then inl EOF
  else if (List.length r <? size)%nat then inl ErrUnexpectedEOF
  else inr (firstn size r).

Definition binary_Read {T : Type} (r : list byte) (size : nat)
    (value : list byte -> T) : error + T :=
  match io_ReadFull r size with
  | inl err => inl err
  | inr buf => inr (value buf)
  end.

(** ** The event structures

    The declarations of [bpfLatdata], [bpfEvent] and [bpfTcpevent] are
    generated by bpf2go and are not part of the source tree, so their wire
    layout is a parameter: the total size of the structure and, for every
    field the loops use, where it lies and, for the integers, of which kind
    it is.  What the loops themselves fix is kept: [Comm] and [Msg] are byte
    arrays (they are passed to [unix.ByteSliceToString]), [Comm] has at least
    four elements (it is indexed by the constants 0 to 3), and [Saddr] and
    [Daddr] are [uint32] (the parameter type of [intToIP]). *)
Record IntField := { int_off : nat; int_kind : IntKind }.
Record ArrField := { arr_off : nat; arr_len : nat }.

Definition int_fits (f : IntField) (size : nat) : bool :=
  (int_off f + kind_size (int_kind f) <=? size)%nat.

Definition arr_fits (f : ArrField) (size : nat) : bool :=
  (arr_off f + arr_len f <=? size)%nat.

Definition get_int (o : ByteOrder) (f : IntField) (buf : list byte) : Z :=
  decode_int o (int_kind f) (slice buf (int_off f) (kind_size (int_kind f))).

Definition get_arr (f : ArrField) (buf : list byte) : list byte :=
  slice buf (arr_off f) (arr_len f).

Module bpfLatdata.
Record t := { DeltaUs : Z; Comm : list byte }.

Record layout := { size : nat; DeltaUs_f : IntField; Comm_f : ArrField }.

Definition wf (L : layout) : bool :=
  int_fits (DeltaUs_f L) (size L) && arr_fits (Comm_f L) (size L)
  && (4 <=? arr_len (Comm_f L))%nat.

(** [var event bpfLatdata] *)
Definition zero (L : layout) : t :=
  {| DeltaUs := 0; Comm := repeat x00 (arr_len (Comm_f L)) |}.

Definition value (L : layout) (o : ByteOrder) (buf : list byte) : t :=
  {| DeltaUs := get_int o (DeltaUs_f L) buf;
     Comm := get_arr (Comm_f L) buf |}.
End bpfLatdata.

Module bpfEvent.
Record t := { Pid : Z; Fd : Z; Len : Z; Comm : list byte; Msg : list byte }.

Record layout := {
  size : nat;
  Pid_f : IntField; Fd_f : IntField; Len_f : IntField;
  Comm_f : ArrField; Msg_f : ArrField }.

Definition wf (L : layout) : bool :=
  int_fits (Pid_f L) (size L) && int_fits (Fd_f L) (size L)
  && int_fits (Len_f L) (size L)
  && arr_fits (Comm_f L) (size L) && arr_fits (Msg_f L) (size L)
  && (4 <=? arr_len (Comm_f L))%nat.

(** [var event bpfEvent] *)
Definition zero (L : layout) : t :=
  {| Pid := 0; Fd := 0; Len := 0;
     Comm := repeat x00 (arr_len (Comm_f L));
     Msg := repeat x00 (arr_len (Msg_f L)) |}.

Definition value (L : layout) (o : ByteOrder) (buf : list byte) : t :=
  {| Pid := get_int o (Pid_f L) buf;
     Fd := get_int o (Fd_f L) buf;
     Len := get_int o (Len_f L) buf;
     Comm := get_arr (Comm_f L) buf;
     Msg := get_arr (Msg_f L) buf |}.
End bpfEvent.

Module bpfTcpevent.
Record t := {
  Saddr : Z; Daddr : Z; Sport : Z; Dport : Z; Srtt : Z;
  Comm : list byte }.

Record layout := {
  size : nat;
  Saddr_off : nat; Daddr_off : nat;
  Sport_f : IntField; Dport_f : IntField; Srtt_f : IntField;
  Comm_f : ArrField }.

Definition Saddr_f (L : layout) : IntField :=
  {| int_off := Saddr_off L; int_kind := KUint32 |}.
Definition Daddr_f (L : layout) : IntField :=
  {| int_off := Daddr_off L; int_kind := KUint32 |}.

Definition wf (L : layout) : bool :=
  int_fits (Saddr_f L) (size L) && int_fits (Daddr_f L) (size L)
  && int_fits (Sport_f L) (size L) && int_fits (Dport_f L) (size L)
  && int_fits (Srtt_f L) (size L)
  && arr_fits (Comm_f L) (size L)
  && (4 <=? arr_len (Comm_f L))%nat.

(** [var tcpevent bpfTcpevent] *)
Definition zero (L : layout) : t :=
  {| Saddr := 0; Daddr := 0; Sport := 0; Dport := 0; Srtt := 0;
     Comm := repeat x00 (arr_len (Comm_f L)) |}.

Definition value (L : layout) (o : ByteOrder) (buf : list byte) : t :=
  {| Saddr := get_int o (Saddr_f L) buf;
     Daddr := get_int o (Daddr_f L) buf;
     Sport := get_int o (Sport_f L) buf;
     Dport := get_int o (Dport_f L) buf;
     Srtt := get_int o (Srtt_f L) buf;
     Comm := get_arr (Comm_f L) buf |}.
End bpfTcpevent.

(** ** Strings and the [fmt] verbs used by the loops *)

Local Open Scope string_scope.
Local Open Scope Z_scope.

Definition TAB : string := String (ascii_of_nat 9) "".
Definition NL : string := String (ascii_of_nat 10) "".

(** [unix.ByteSliceToString]: the bytes before the first NUL, or all of them
    when there is none. *)
Fixpoint until_NUL (s : list byte) : list byte :=
  match s with
  | [] => []
  | b :: rest => if Byte.eqb b x00 then [] else b :: until_NUL rest
  end.

Definition ByteSliceToString (s : list byte) : string :=
  string_of_list_byte (until_NUL s).

(** [%d] *)
Definition fmt_d (z : Z) : string := NilZero.string_of_int (Z.to_int z).

(** [utf8.RuneCountInString], which [fmt] uses to measure a string it pads.
    [utf8_first] is the table [first] restricted to the lead bytes of
    multi-byte sequences (size and accepted range of the second byte); every
    other byte at or above 0x80 is invalid and counts as one rune. *)
Definition utf8_first (c : Z) : option (nat * (Z * Z)) :=
  if c <? 0xC2 then None
  else if c <=? 0xDF then Some (2%nat, (0x80, 0xBF))
  else if c =? 0xE0 then Some (3%nat, (0xA0, 0xBF))
  else if c <=? 0xEC then Some (3%nat, (0x80, 0xBF))
  else if c =? 0xED then Some (3%nat, (0x80, 0x9F))
  else if c <=? 0xEF then Some (3%nat, (0x80, 0xBF))
  else if c =? 0xF0 then Some (4%nat, (0x90, 0xBF))
  else if c <=? 0xF3 then Some (4%nat, (0x80, 0xBF))
  else if c =? 0xF4 then Some (4%nat, (0x80, 0x8F))
  else None.

(** By how many bytes one turn of the counting loop advances, [s] being the
    bytes from the current position on. *)
Definition rune_advance (s : list byte) : nat :=
  let c := u8 (idx s 0) in
  if c <? 0x80 then 1%nat
  else match utf8_first c with
       | None => 1%nat
       | Some (size, (lo, hi)) =>
         if (List.length s <? size)%nat then 1%nat
         else
           let c1 := u8 (idx s 1) in
           if (c1 <? lo) || (hi <? c1) then 1%nat
           else if (size =? 2)%nat then 2%nat
           else
             let c2 := u8 (idx s 2) in
             if (c2 <? 0x80) || (0xBF <? c2) then 1%nat
             else if (size =? 3)%nat then 3%nat
             else
               let c3 := u8 (idx s 3) in
               if (c3 <? 0x80) || (0xBF <? c3) then 1%nat else 4%nat
       end.

(** The loop itself; [skip] counts the bytes still belonging to the rune
    already counted. *)
Fixpoint rune_count_from (s : list byte) (skip : nat) : nat :=
  match s with
  | [] => 0%nat
  | _ :: rest =>
    match skip with
    | S k => rune_count_from rest k
    | O => S (rune_count_from rest (rune_advance s - 1))
    end
  end.

Definition RuneCountInString (s : string) : nat :=
  rune_count_from (list_byte_of_string s) 0.

Fixpoint spaces (n : nat) : string :=
  match n with
  | O => ""
  | S k => String " " (spaces k)
  end.

(** [%-Ns], [%-Nd]: left-justified in a field of [wid] runes. *)
Definition pad_right (wid : nat) (s : string) : string :=
  s ++ spaces (wid - RuneCountInString s).

(** [net.IP.String] on the four-byte form, the only one [intToIP] builds;
    other lengths do not occur here and are mapped to the empty string. *)
Definition IP_String (ip : list byte) : string :=
  match ip with
  | [a; b; c; d] =>
    fmt_d (u8 a) ++ "." ++ fmt_d (u8 b) ++ "." ++ fmt_d (u8 c) ++ "."
    ++ fmt_d (u8 d)
  | _ => ""
  end.

(** ** float64 and the verb [%.2f] *)

(** [float64(x)] for an integer [x]: rounded to the nearest binary64 value,
    ties to even. *)
Definition float64_of_Z (x : Z) : spec_float :=
  binary_normalize 53 1024 x 0 false.

(** The constant [1000.0]. *)
Definition f1000 : spec_float := float64_of_Z 1000.

Definition float64_div : spec_float -> spec_float -> spec_float :=
  SFdiv 53 1024.

(** [num / den] rounded to the nearest integer, ties to even, for
    [0 <= num] and [0 < den]. *)
Definition round_half_even (num den : Z) : Z :=
  let q := (num / den)%Z in
  match (2 * (num mod den) ?= den)%Z with
  | Lt => q
  | Gt => (q + 1)%Z
  | Eq => if Z.even q then q else (q + 1)%Z
  end.

(** [m * 2^e] in hundredths, correctly rounded: [strconv] converts the
    binary value to its exact decimal expansion and rounds that to the
    requested number of places, a tie going to the even digit. *)
Definition hundredths (m : positive) (e : Z) : Z :=
  if (0 <=? e)%Z then (100 * Zpos m * 2 ^ e)%Z
  else round_half_even (100 * Zpos m) (2 ^ (- e)).

Definition digit (d : Z) : ascii := ascii_of_nat (48 + Z.to_nat d).

Definition fixed2 (n : Z) : string :=
  fmt_d (n / 100) ++ "."
  ++ String (digit ((n / 10) mod 10)) (String (digit (n mod 10)) "").

(** [%.2f] *)
Definition fmt_f2 (x : spec_float) : string :=
  match x with
  | S754_nan => "NaN"
  | S754_infinity s => if s then "-Inf" else "+Inf"
  | S754_zero s => (if s then "-" else "") ++ "0.00"
  | S754_finite s m e => (if s then "-" else "") ++ fixed2 (hundredths m e)
  end.

(** [float64(us)/1000.0] printed with [%.2f]: microseconds shown as
    milliseconds. *)
Definition fmt_ms (us : Z) : string :=
  fmt_f2 (float64_div (float64_of_Z us) f1000).

(** ** The log sink

    What the standard logger receives, one entry per call, tagged with the
    kind of call that produced it.  The text is the formatted message as the
    logger writes it after its time-stamp header: a newline is appended when
    the message does not end in one. *)
Inductive LogEntry :=
| ReadErrorLog (text : string)    (* a failed [rd.Read()] *)
| LostSamplesLog (text : string)  (* samples dropped by the kernel *)
| ParseErrorLog (text : string)   (* a failed [binary.Read] *)
| ExitLog (text : string)         (* the notice printed when the reader is closed *)
| EventLine (text : string).      (* an event that passed the filter *)

Fixpoint ends_with_NL (s : string) : bool :=
  match s with
  | EmptyString => false
  | String c EmptyString => Ascii.eqb c (ascii_of_nat 10)
  | String _ rest => ends_with_NL rest
  end.

Definition log_Output (s : string) : string :=
  if ends_with_NL s then s else s ++ NL.

Definition is_EventLine (e : LogEntry) : bool :=
  match e with EventLine _ => true | _ => false end.

(** Entries that report an error or a loss. *)
Definition is_diagnostic (e : LogEntry) : bool :=
  match e with
  | ReadErrorLog _ | LostSamplesLog _ | ParseErrorLog _ => true
  | _ => false
  end.

(** ** The records handed out by the readers *)

Module perf.
(** [perf.Record]: a sample, or a count of samples the kernel dropped. *)
Record record := { RawSample : list byte; LostSamples : N }.
End perf.

Module ringbuf.
(** [ringbuf.Record] *)
Record record := { RawSample : list byte }.
End ringbuf.

(** The pair [(record, err)] returned by [rd.Read()]. *)
Inductive ReadResult (R : Type) :=
| ReadOk (record : R)
| ReadErr (err : error).
Arguments ReadOk {R} record.
Arguments ReadErr {R} err.

(** ** The read loops

    One turn of a [for] loop either goes round again ([continue], or the end
    of the body) with the loop's variable in a new state, or leaves the
    function ([return]); both may have logged. *)
Inductive Step (S : Type) :=
| Continue (s : S) (out : list LogEntry)
| Return (out : list LogEntry).
Arguments Continue {S} s out.
Arguments Return {S} out.

(** The test all three loops apply to the process name:
    [Comm[0] == 115 && Comm[1] == 105 && Comm[2] == 112 && Comm[3] == 112]. *)
Definition comm_is_sipp (Comm : list byte) : bool :=
  (u8 (idx Comm 0) =? 115) && (u8 (idx Comm 1) =? 105)
  && (u8 (idx Comm 2) =? 112) && (u8 (idx Comm 3) =? 112).

Section Loops.
(** [internal.NativeEndian], the byte order of the host. *)
Variable NativeEndian : ByteOrder.

Variable Llat : bpfLatdata.layout.
Variable Lev : bpfEvent.layout.
Variable Ltcp : bpfTcpevent.layout.

(** [intToIP] *)
Definition intToIP (ipNum : Z) : list byte :=
  PutUint32 NativeEndian ipNum.

(** The line printed by [readLoopTcpLatency]. *)
Definition latency_line (event : bpfLatdata.t) : string :=
  log_Output
    ("Latency: " ++ fmt_ms (bpfLatdata.DeltaUs event) ++ TAB ++ "comm: "
     ++ ByteSliceToString (bpfLatdata.Comm event)).

(** One turn of the loop of [readLoopTcpLatency]; [event] is the variable
    declared before the loop, [rd] what [rd.Read()] returns. *)
Definition readLoopTcpLatency_body (event : bpfLatdata.t)
    (rd : ReadResult perf.record) : Step bpfLatdata.t :=
  match rd with
  | ReadErr err =>
    if errors_Is_ErrClosed err then Return []
    else Continue event
           [ReadErrorLog
              (log_Output ("reading from perf event reader: " ++ Error err))]
  | ReadOk record =>
    if negb (perf.LostSamples record =? 0)%N then
      Continue event
        [LostSamplesLog
           (log_Output ("perf event ring buffer full, dropped "
                        ++ fmt_d (Z.of_N (perf.LostSamples record))
                        ++ " samples"))]
    else
      match binary_Read (perf.RawSample record) (bpfLatdata.size Llat)
              (bpfLatdata.value Llat LittleEndian) with
      | inl err =>
        Continue event
          [ParseErrorLog (log_Output ("parsing perf event: " ++ Error err))]
      | inr event' =>
        if comm_is_sipp (bpfLatdata.Comm event') then
          Continue event' [EventLine (latency_line event')]
        else Continue event' []
      end
  end.

(** The line printed by [readLoopSipMessages]. *)
Definition message_line (event : bpfEvent.t) : string :=
  log_Output
    ("pid: " ++ fmt_d (bpfEvent.Pid event) ++ TAB
     ++ "fd: " ++ fmt_d (bpfEvent.Fd event) ++ TAB
     ++ "len: " ++ fmt_d (bpfEvent.Len event) ++ TAB
     ++ "comm: " ++ ByteSliceToString (bpfEvent.Comm event) ++ NL
     ++ ByteSliceToString (bpfEvent.Msg event) ++ " " ++ NL ++ NL).

Definition readLoopSipMessages_body (event : bpfEvent.t)
    (rd : ReadResult ringbuf.record) : Step bpfEvent.t :=
  match rd with
  | ReadErr err =>
    if errors_Is_ErrClosed err then
      Return [ExitLog (log_Output "Received signal, exiting..")]
    else Continue event
           [ReadErrorLog (log_Output ("reading from reader: " ++ Error err))]
  | ReadOk record =>
    match binary_Read (ringbuf.RawSample record) (bpfEvent.size Lev)
            (bpfEvent.value Lev LittleEndian) with
    | inl err =>
      Continue event
        [ParseErrorLog (log_Output ("parsing ringbuf event: " ++ Error err))]
    | inr event' =>
      if comm_is_sipp (bpfEvent.Comm event') then
        Continue event' [EventLine (message_line event')]
      else Continue event' []
    end
  end.

(** The line printed by [readLoopTcpClose]. *)
Definition tcpclose_line (tcpevent : bpfTcpevent.t) : string :=
  log_Output
    (pad_right 15 (IP_String (intToIP (bpfTcpevent.Saddr tcpevent))) ++ " "
     ++ pad_right 6 (fmt_d (bpfTcpevent.Sport tcpevent)) ++ " -> "
     ++ pad_right 15 (IP_String (intToIP (bpfTcpevent.Daddr tcpevent))) ++ " "
     ++ pad_right 6 (fmt_d (bpfTcpevent.Dport tcpevent)) ++ " "
     ++ fmt_ms (bpfTcpevent.Srtt tcpevent) ++ " "
     ++ pad_right 6 (ByteSliceToString (bpfTcpevent.Comm tcpevent))).

Definition readLoopTcpClose_body (tcpevent : bpfTcpevent.t)
    (rd : ReadResult ringbuf.record) : Step bpfTcpevent.t :=
  match rd with
  | ReadErr err =>
    if errors_Is_ErrClosed err then
      Return [ExitLog (log_Output "received signal, exiting..")]
    else Continue tcpevent
           [ReadErrorLog (log_Output ("reading from reader: " ++ Error err))]
  | ReadOk record =>
    match binary_Read (ringbuf.RawSample record) (bpfTcpevent.size Ltcp)
            (bpfTcpevent.value Ltcp NativeEndian) with
    | inl err =>
      Continue tcpevent
        [ParseErrorLog (log_Output ("parsing ringbuf event: " ++ Error err))]
    | inr tcpevent' =>
      if comm_is_sipp (bpfTcpevent.Comm tcpevent') then
        Continue tcpevent' [EventLine (tcpclose_line tcpevent')]
      else Continue tcpevent' []
    end
  end.
End Loops.

(** Running a loop against the successive results of [rd.Read()].  The
    result is what was logged and, when the function has not returned, the
    loop variable with which it waits in the next [Read]. *)
Fixpoint run_loop {S R : Type} (body : S -> R -> Step S) (s : S)
    (reads : list R) : list LogEntry * option S :=
  match reads with
  | [] => ([], Some s)
  | rd :: rest =>
    match body s rd with
    | Return out => (out, None)
    | Continue s' out =>
      let (out', final) := run_loop body s' rest in ((out ++ out')%list, final)
    end
  end.

Definition readLoopTcpLatency (Llat : bpfLatdata.layout)
    (reads : list (ReadResult perf.record)) : list LogEntry * option bpfLatdata.t :=
  run_loop (readLoopTcpLatency_body Llat) (bpfLatdata.zero Llat) reads.

Definition readLoopSipMessages (Lev : bpfEvent.layout)
    (reads : list (ReadResult ringbuf.record)) : list LogEntry * option bpfEvent.t :=
  run_loop (readLoopSipMessages_body Lev) (bpfEvent.zero Lev) reads.

Definition readLoopTcpClose (NativeEndian : ByteOrder) (Ltcp : bpfTcpevent.layout)
    (reads : list (ReadResult ringbuf.record)) : list LogEntry * option bpfTcpevent.t :=
  run_loop (readLoopTcpClose_body NativeEndian Ltcp) (bpfTcpevent.zero Ltcp) reads.

(** ** main: acquisition and release of resources

    [main] is a straight line of calls, each of which may fail.  A failure
    ends in [log.Fatal]/[log.Fatalf], which logs and calls [os.Exit(1)]: the
    process ends at once and deferred calls are not run.  A [defer]
    statement pushes a call that runs, last pushed first, when [main]
    returns. *)
Inductive Resource :=
| objs          (* the loaded programs and maps *)
| kp1 | kp2 | kp3 | kp4   (* the four kprobes *)
| link          (* the tracing link *)
| rd1 | rd2     (* the two ring-buffer readers *)
| rd3.          (* the perf reader *)

Inductive Call :=
| RemoveMemlock
| Open (r : Resource).

Inductive Loop := SipMessages | TcpClose | TcpLatency.

(** What [main] does, in order. *)
Inductive Action :=
| Notify                    (* [signal.Notify(stopper, ...)] *)
| Called (c : Call)         (* a call that succeeded *)
| Fatal (text : string)     (* [log.Fatal], [log.Fatalf] *)
| Printf (text : string)
| Go (l : Loop)             (* [go readLoop...(rd)] *)
| Received                  (* [<-stopper] delivered a signal *)
| Close (r : Resource).     (* a deferred [Close()] *)

Inductive Outcome :=
| Exit (code : Z)           (* the process has ended with this status *)
| Blocked.                  (* [main] waits in [<-stopper] *)

Record MainState := { trace : list Action; deferred : list Resource }.

(** Computations of [main]: the state is threaded, and a computation either
    yields a value or ends the process. *)
Definition M (A : Type) : Type := MainState -> MainState * (A + Outcome).

Definition ret {A : Type} (a : A) : M A := fun st => (st, inl a).

Definition bind {A B : Type} (m : M A) (k : A -> M B) : M B :=
  fun st =>
    match m st with
    | (st', inl a) => k a st'
    | (st', inr o) => (st', inr o)
    end.

Notation "m ;; k" := (bind m (fun _ => k))
  (at level 61, right associativity).

Definition emit (a : Action) : M unit :=
  fun st => ({| trace := (trace st ++ [a])%list; deferred := deferred st |}, inl tt).

(** [log.Fatalf(format, err)] *)
Definition log_Fatalf (text : string) : M unit :=
  fun st =>
    ({| trace := (trace st ++ [Fatal (log_Output text)])%list;
        deferred := deferred st |}, inr (Exit 1)).

(** [defer r.Close()] *)
Definition defer (r : Resource) : M unit :=
  fun st => ({| trace := trace st; deferred := r :: deferred st |}, inl tt).

Section Main.
(** The environment: which calls fail, and with what error; and whether a
    termination signal is ever delivered. *)
Variable fails : Call -> option error.
Variable signalled : bool.

(** [if err := c(); err != nil { log.Fatalf(prefix + "%s", err) }] *)
Definition call (c : Call) (prefix : string) : M unit :=
  match fails c with
  | Some err => log_Fatalf (prefix ++ Error err)
  | None => emit (Called c)
  end.

(** [<-stopper] *)
Definition wait_stopper : M unit :=
  fun st =>
    if signalled
    then ({| trace := (trace st ++ [Received])%list; deferred := deferred st |},
          inl tt)
    else (st, inr Blocked).

Definition main_body : M unit :=
  emit Notify ;;
  call RemoveMemlock "" ;;
  call (Open objs) "loading objects: " ;;
  defer objs ;;
  call (Open kp1) "opening kprobe: " ;;
  defer kp1 ;;
  call (Open kp2) "opening kprobe: " ;;
  defer kp2 ;;
  call (Open kp3) "opening kprobe: " ;;
  defer kp3 ;;
  call (Open kp4) "opening kprobe: " ;;
  defer kp4 ;;
  call (Open link) "" ;;
  defer link ;;
  call (Open rd1) "opening ringbuf reader: " ;;
  defer rd1 ;;
  call (Open rd2) "opening ringbuf reader: " ;;
  defer rd2 ;;
  call (Open rd3) "creating perf event reader: " ;;
  defer rd3 ;;
  emit (Printf (log_Output "Listening for events..")) ;;
  emit (Go SipMessages) ;;
  emit (Go TcpClose) ;;
  emit (Go TcpLatency) ;;
  wait_stopper.

(** The whole of [main]: when the body runs to its end the function
    returns, the deferred calls run from the top of the stack down, and
    the process ends with status 0. *)
Definition main : list Action * Outcome :=
  match main_body {| trace := []; deferred := [] |} with
  | (st, inl _) => ((trace st ++ map Close (deferred st))%list, Exit 0)
  | (st, inr o) => (trace st, o)
  end.
End Main.

(** The resources opened, and those closed, in the order of the trace. *)
Fixpoint opened (t : list Action) : list Resource :=
  match t with
  | [] => []
  | Called (Open r) :: rest => r :: opened rest
  | _ :: rest => opened rest
  end.

Fixpoint closed (t : list Action) : list Resource :=
  match t with
  | [] => []
  | Close r :: rest => r :: closed rest
  | _ :: rest => closed rest
  end.

Definition no_failure : Call -> option error := fun _ => None.

(** The environment in which exactly the call [c] fails, with [err]. *)
Definition Call_eqb (a b : Call) : bool :=
  match a, b with
  | RemoveMemlock, RemoveMemlock => true
  | Open r, Open r' =>
    match r, r' with
    | objs, objs | kp1, kp1 | kp2, kp2 | kp3, kp3 | kp4, kp4
    | link, link | rd1, rd1 | rd2, rd2 | rd3, rd3 => true
    | _, _ => false
    end
  | _, _ => false
  end.

Definition fails_at (c : Call) (err : error) : Call -> option error :=
  fun c' => if Call_eqb c c' then Some err else None.

(** ** Reference notions used in the statements *)

(** The signature the filter looks for: the bytes 115, 105, 112, 112. *)
Definition sipp : list byte := list_byte_of_string "sipp".

(** Positional value of a byte string, least significant byte first, and
    most significant byte first. *)
Fixpoint le_value (bs : list byte) : Z :=
  match bs with
  | [] => 0
  | b :: rest => u8 b + 256 * le_value rest
  end.

Definition be_value (bs : list byte) : Z := le_value (rev bs).

Definition order_value (o : ByteOrder) (bs : list byte) : Z :=
  match o with
  | LittleEndian => le_value bs
  | BigEndian => be_value bs
  end.

Definition signed_kind (k : IntKind) : bool :=
  match k with
  | KInt8 | KInt16 | KInt32 | KInt64 => true
  | _ => false
  end.

(** The value of an integer field of a raw record under a byte order: the
    positional value of the bytes the field occupies, read as two's
    complement when the field's type is signed. *)
Definition field_value (o : ByteOrder) (f : IntField) (raw : list byte) : Z :=
  let v := order_value o (slice raw (int_off f) (kind_size (int_kind f))) in
  if signed_kind (int_kind f) then to_signed (kind_size (int_kind f)) v else v.

(** A read result that closes the loop. *)
Definition is_closed {R : Type} (rd : ReadResult R) : bool :=
  match rd with
  | ReadErr err => errors_Is_ErrClosed err
  | ReadOk _ => false
  end.

(** Decimal text with exactly two places: an optional sign, at least one
    digit, a point, two digits. *)
Definition is_digit (c : ascii) : bool :=
  (48 <=? nat_of_ascii c)%nat && (nat_of_ascii c <=? 57)%nat.

Fixpoint all_digits (s : string) : bool :=
  match s with
  | EmptyString => true
  | String c rest => is_digit c && all_digits rest
  end.

Definition two_decimals (s : string) : Prop :=
  exists sign int_part d1 d2,
    s = sign ++ int_part ++ "." ++ String d1 (String d2 "")
    /\ (sign = "" \/ sign = "-")
    /\ int_part <> "" /\ all_digits int_part = true
    /\ is_digit d1 = true /\ is_digit d2 = true.

(** Modelled from the spec: the declarations of [bpfLatdata], [bpfEvent]
    and [bpfTcpevent] (generated by bpf2go) are missing from the source
    tree.  The three layouts below list the fields in the order of the data
    model of the spec; the widths, which the spec leaves open, are those of
    the usual kernel types (32-bit ids, 16-bit ports, a 64-bit time
    difference, 16 bytes of process name).  They only serve to run the loops
    on concrete records: every general statement below is about an
    arbitrary layout. *)
Definition latdata_layout : bpfLatdata.layout :=
  {| bpfLatdata.size := 24;
     bpfLatdata.DeltaUs_f := {| int_off := 0; int_kind := KUint64 |};
     bpfLatdata.Comm_f := {| arr_off := 8; arr_len := 16 |} |}.

Definition event_layout : bpfEvent.layout :=
  {| bpfEvent.size := 60;
     bpfEvent.Pid_f := {| int_off := 0; int_kind := KUint32 |};
     bpfEvent.Fd_f := {| int_off := 4; int_kind := KUint32 |};
     bpfEvent.Len_f := {| int_off := 8; int_kind := KUint32 |};
     bpfEvent.Comm_f := {| arr_off := 12; arr_len := 16 |};
     bpfEvent.Msg_f := {| arr_off := 28; arr_len := 32 |} |}.

Definition tcpevent_layout : bpfTcpevent.layout :=
  {| bpfTcpevent.size := 32;
     bpfTcpevent.Saddr_off := 0;
     bpfTcpevent.Daddr_off := 4;
     bpfTcpevent.Sport_f := {| int_off := 8; int_kind := KUint16 |};
     bpfTcpevent.Dport_f := {| int_off := 10; int_kind := KUint16 |};
     bpfTcpevent.Srtt_f := {| int_off := 12; int_kind := KUint32 |};
     bpfTcpevent.Comm_f := {| arr_off := 16; arr_len := 16 |} |}.

(** A process name as it lies in a 16-byte field: the name, then NULs. *)
Definition comm16 (name : string) : list byte :=
  firstn 16 (list_byte_of_string name ++ repeat x00 16).

(** A latency record of 1500 microseconds. *)
Definition latency_raw (name : string) : list byte :=
  ([xdc; x05; x00; x00; x00; x00; x00; x00] ++ comm16 name)%list.

(** A connection-close record, as a little-endian host lays it out:
    10.0.0.1:5000 to 10.0.0.2:5060, smoothed round-trip time 2500. *)
Definition tcpclose_raw (name : string) : list byte :=
  ([x0a; x00; x00; x01; x0a; x00; x00; x02;
    x88; x13; xc4; x13; xc4; x09; x00; x00] ++ comm16 name)%list.

(** A message record: pid 4242, fd 7, 12 bytes of payload. *)
Definition message_raw (name : string) : list byte :=
  ([x92; x10; x00; x00; x07; x00; x00; x00; x0c; x00; x00; x00]
   ++ comm16 name
   ++ firstn 32 (list_byte_of_string "OPTIONS sip" ++ repeat x00 32))%list.

(** The error [io.ReadFull] reports for a record of [n] bytes that is too
    short for the structure. *)
Definition short_read_error (n : nat) : error :=
  if (n =? 0)%nat then EOF else ErrUnexpectedEOF.

(** A float that is a number (a zero or a finite value), of magnitude below
    [2 ^ K]. *)
Definition finite_below (K : Z) (x : spec_float) : Prop :=
  match x with
  | S754_zero _ => True
  | S754_finite _ m e => Zpos (digits2_pos m) + e <= K
  | _ => False
  end.

(** ** Further notions used in the statements *)

Definition is_ExitLog (e : LogEntry) : bool :=
  match e with ExitLog _ => true | _ => false end.

Definition is_ReadOk {R : Type} (rd : ReadResult R) : bool :=
  match rd with ReadOk _ => true | ReadErr _ => false end.

(** The read loops started by [main], in the order of the trace. *)
Fixpoint started (t : list Action) : list Loop :=
  match t with
  | [] => []
  | Go l :: rest => l :: started rest
  | _ :: rest => started rest
  end.

(** The order in which [main] acquires its resources. *)
Definition acquisition_order : list Resource :=
  [objs; kp1; kp2; kp3; kp4; link; rd1; rd2; rd3].

(** * Properties *)

(** ** Slices and [binary.Read] *)

Lemma slice_length (buf : list byte) (lo n : nat) :
  (lo + n <= List.length buf)%nat -> List.length (slice buf lo n) = n.
Proof.
  intros H. unfold slice. rewrite firstn_length_le; [reflexivity|].
  rewrite length_skipn. lia.
Qed.

Lemma slice_firstn (raw : list byte) (size lo n : nat) :
  (lo + n <= size)%nat -> slice (firstn size raw) lo n = slice raw lo n.
Proof.
  intros H. unfold slice.
  rewrite skipn_firstn_comm, firstn_firstn.
  f_equal. lia.
Qed.

Lemma binary_Read_ok {T : Type} (raw : list byte) (size : nat)
    (value : list byte -> T) :
  (size <= List.length raw)%nat ->
  binary_Read raw size value = inr (value (firstn size raw)).
Proof.
  intros H. unfold binary_Read, io_ReadFull.
  destruct (Nat.eqb_spec size 0) as [->|Hs]; [reflexivity|].
  destruct (Nat.eqb_spec (List.length raw) 0) as [E|_]; [lia|].
  destruct (Nat.ltb_spec (List.length raw) size) as [E|_]; [lia|].
  reflexivity.
Qed.

Lemma binary_Read_short {T : Type} (raw : list byte) (size : nat)
    (value : list byte -> T) :
  (List.length raw < size)%nat ->
  binary_Read raw size value = inl (short_read_error (List.length raw)).
Proof.
  intros H. unfold binary_Read, io_ReadFull, short_read_error.
  destruct (Nat.eqb_spec size 0) as [E|_]; [lia|].
  destruct (Nat.eqb_spec (List.length raw) 0) as [E|_]; [reflexivity|].
  destruct (Nat.ltb_spec (List.length raw) size) as [_|E]; [reflexivity|lia].
Qed.

Lemma binary_Read_inv {T : Type} (raw : list byte) (size : nat)
    (value : list byte -> T) (v : T) :
  binary_Read raw size value = inr v ->
  (size <= List.length raw)%nat /\ v = value (firstn size raw).
Proof.
  intros H.
  destruct (Nat.le_gt_cases size (List.length raw)) as [Hle|Hgt].
  - rewrite binary_Read_ok in H by assumption. split; congruence.
  - rewrite binary_Read_short in H by assumption. discriminate.
Qed.

(** ** The filter *)

Lemma u8_range (b : byte) : 0 <= u8 b < 256.
Proof.
  unfold u8. pose proof (Byte.to_N_bounded b) as H. lia.
Qed.

Lemma byte_of_u8 (b : byte) : byte_of_Z (u8 b) = b.
Proof.
  unfold byte_of_Z. rewrite Z.mod_small by apply u8_range.
  unfold u8. rewrite N2Z.id, Byte.of_to_N. reflexivity.
Qed.

Lemma u8_inj (a b : byte) : u8 a = u8 b -> a = b.
Proof.
  intros H. rewrite <- (byte_of_u8 a), <- (byte_of_u8 b), H. reflexivity.
Qed.

Lemma u8_eqb (b c : byte) : (u8 b =? u8 c) = true <-> b = c.
Proof.
  rewrite Z.eqb_eq. split; [apply u8_inj | congruence].
Qed.

(** On an array of at least four bytes the test of the loops holds exactly
    when the first four bytes are those of "sipp". *)
Lemma comm_is_sipp_spec (Comm : list byte) :
  (4 <= List.length Comm)%nat ->
  comm_is_sipp Comm = true <-> firstn 4 Comm = sipp.
Proof.
  intros H.
  destruct Comm as [|c0 [|c1 [|c2 [|c3 rest]]]]; cbn in H; try lia.
  unfold comm_is_sipp, idx, sipp. cbn [nth firstn list_byte_of_string].
  change 115 with (u8 x73). change 105 with (u8 x69). change 112 with (u8 x70).
  rewrite !andb_true_iff, !u8_eqb.
  split.
  - intros [[[-> ->] ->] ->]. reflexivity.
  - intros E. injection E as -> -> -> ->. auto.
Qed.

Lemma comm_is_sipp_prefix (suffix : list byte) :
  comm_is_sipp (sipp ++ suffix) = true.
Proof. reflexivity. Qed.

Lemma comm_is_sipp_false (Comm : list byte) :
  (4 <= List.length Comm)%nat -> firstn 4 Comm <> sipp ->
  comm_is_sipp Comm = false.
Proof.
  intros H Hne. destruct (comm_is_sipp Comm) eqn:E; [|reflexivity].
  apply comm_is_sipp_spec in E; [contradiction|assumption].
Qed.

Lemma get_arr_length (f : ArrField) (size : nat) (raw : list byte) :
  arr_fits f size = true -> (size <= List.length raw)%nat ->
  List.length (get_arr f (firstn size raw)) = arr_len f.
Proof.
  unfold arr_fits, get_arr. intros Hf Hs. apply Nat.leb_le in Hf.
  apply slice_length. rewrite firstn_length_le by assumption. assumption.
Qed.

(** ** Records that are not decoded *)

(** C4.  A record shorter than the structure of its kind makes [binary.Read]
    fail ([io.EOF] for an empty record, [io.ErrUnexpectedEOF] otherwise); the
    loop emits no event line for it, leaves its variable as it was and goes
    on to the next read; the error is logged, and nothing else.  In the perf
    loop the decoder is reached, and its error logged, by the records that
    report no lost samples; the others are covered by C5. *)
Theorem short_record_is_logged_and_skipped
    (NativeEndian : ByteOrder) (Llat : bpfLatdata.layout)
    (Lev : bpfEvent.layout) (Ltcp : bpfTcpevent.layout) :
  (forall event record,
      (List.length (perf.RawSample record) < bpfLatdata.size Llat)%nat ->
      binary_Read (perf.RawSample record) (bpfLatdata.size Llat)
        (bpfLatdata.value Llat LittleEndian)
      = inl (short_read_error (List.length (perf.RawSample record)))
      /\ (exists out,
            readLoopTcpLatency_body Llat event (ReadOk record)
            = Continue event out
            /\ existsb is_EventLine out = false)
      /\ (perf.LostSamples record = 0%N ->
          readLoopTcpLatency_body Llat event (ReadOk record)
          = Continue event
              [ParseErrorLog
                 (log_Output
                    ("parsing perf event: "
                     ++ Error (short_read_error
                                 (List.length (perf.RawSample record)))))]))
  /\ (forall event raw,
      (List.length raw < bpfEvent.size Lev)%nat ->
      binary_Read raw (bpfEvent.size Lev) (bpfEvent.value Lev LittleEndian)
      = inl (short_read_error (List.length raw))
      /\ readLoopSipMessages_body Lev event
           (ReadOk {| ringbuf.RawSample := raw |})
         = Continue event
             [ParseErrorLog
                (log_Output ("parsing ringbuf event: "
                             ++ Error (short_read_error (List.length raw))))])
  /\ (forall tcpevent raw,
      (List.length raw < bpfTcpevent.size Ltcp)%nat ->
      binary_Read raw (bpfTcpevent.size Ltcp)
        (bpfTcpevent.value Ltcp NativeEndian)
      = inl (short_read_error (List.length raw))
      /\ readLoopTcpClose_body NativeEndian Ltcp tcpevent
           (ReadOk {| ringbuf.RawSample := raw |})
         = Continue tcpevent
             [ParseErrorLog
                (log_Output ("parsing ringbuf event: "
                             ++ Error (short_read_error (List.length raw))))]).
Proof.
  split; [|split].
  - intros event record Hs. unfold readLoopTcpLatency_body.
    rewrite binary_Read_short by assumption.
    split; [reflexivity|]. split.
    + destruct (negb _); eexists; split; reflexivity.
    + intros ->. reflexivity.
  - intros event raw Hs. unfold readLoopSipMessages_body.
    cbn [ringbuf.RawSample]. rewrite binary_Read_short by assumption.
    split; reflexivity.
  - intros event raw Hs. unfold readLoopTcpClose_body.
    cbn [ringbuf.RawSample]. rewrite binary_Read_short by assumption.
    split; reflexivity.
Qed.

Lemma short_record_is_logged_and_skipped_witness :
  (List.length [x01; x02; x03] < bpfLatdata.size latdata_layout)%nat
  /\ readLoopTcpLatency_body latdata_layout (bpfLatdata.zero latdata_layout)
       (ReadOk {| perf.RawSample := [x01; x02; x03]; perf.LostSamples := 0 |})
     = Continue (bpfLatdata.zero latdata_layout)
         [ParseErrorLog
            (log_Output ("parsing perf event: " ++ Error ErrUnexpectedEOF))]
  /\ readLoopSipMessages_body event_layout (bpfEvent.zero event_layout)
       (ReadOk {| ringbuf.RawSample := [] |})
     = Continue (bpfEvent.zero event_layout)
         [ParseErrorLog (log_Output ("parsing ringbuf event: " ++ Error EOF))].
Proof.
  pose proof (short_record_is_logged_and_skipped
                LittleEndian latdata_layout event_layout tcpevent_layout)
    as [Hlat [Hev _]].
  split; [vm_compute; lia|]. split.
  - apply (Hlat (bpfLatdata.zero latdata_layout)
             {| perf.RawSample := [x01; x02; x03]; perf.LostSamples := 0 |});
      [vm_compute; lia|reflexivity].
  - apply (Hev (bpfEvent.zero event_layout) []). vm_compute; lia.
Defined.

(** C5.  A successful read of the perf reader that reports lost samples is
    logged as a loss and nothing else happens in that turn: whatever the
    record holds is not decoded, the loop variable is unchanged, no event
    line is emitted, and the loop goes on. *)
Theorem lost_samples_are_logged_and_skipped
    (Llat : bpfLatdata.layout) (event : bpfLatdata.t) (record : perf.record) :
  perf.LostSamples record <> 0%N ->
  readLoopTcpLatency_body Llat event (ReadOk record)
  = Continue event
      [LostSamplesLog
         (log_Output ("perf event ring buffer full, dropped "
                      ++ fmt_d (Z.of_N (perf.LostSamples record))
                      ++ " samples"))].
Proof.
  intros H. unfold readLoopTcpLatency_body.
  apply N.eqb_neq in H. rewrite H. reflexivity.
Qed.

Lemma lost_samples_are_logged_and_skipped_witness :
  readLoopTcpLatency_body latdata_layout (bpfLatdata.zero latdata_layout)
    (ReadOk {| perf.RawSample := latency_raw "sipp"; perf.LostSamples := 3 |})
  = Continue (bpfLatdata.zero latdata_layout)
      [LostSamplesLog
         (log_Output "perf event ring buffer full, dropped 3 samples")].
Proof.
  apply (lost_samples_are_logged_and_skipped latdata_layout
           (bpfLatdata.zero latdata_layout)
           {| perf.RawSample := latency_raw "sipp"; perf.LostSamples := 3 |}).
  cbn. discriminate.
Defined.

(** ** Leaving the loop *)

Section RunLoop.
Context {S R : Type}.
Variable body : S -> ReadResult R -> Step S.
Hypothesis body_closed :
  forall s rd, is_closed rd = true -> exists out, body s rd = Return out.
Hypothesis body_open :
  forall s rd, is_closed rd = false ->
               exists s' out, body s rd = Continue s' out.

Lemma run_loop_returns (reads : list (ReadResult R)) (s : S) :
  snd (run_loop body s reads) = None <-> existsb is_closed reads = true.
Proof.
  revert s. induction reads as [|rd rest IH]; intros s; cbn.
  - split; discriminate.
  - destruct (is_closed rd) eqn:E.
    + destruct (body_closed s rd E) as [out ->]. cbn. tauto.
    + destruct (body_open s rd E) as [s' [out ->]].
      specialize (IH s'). destruct (run_loop body s' rest) as [out' final].
      cbn in *. exact IH.
Qed.
End RunLoop.

Lemma latency_body_open (Llat : bpfLatdata.layout) event record :
  exists event' out,
    readLoopTcpLatency_body Llat event (ReadOk record) = Continue event' out.
Proof.
  unfold readLoopTcpLatency_body.
  destruct (negb _); [eauto|].
  destruct (binary_Read _ _ _); [eauto|].
  destruct (comm_is_sipp _); eauto.
Qed.

Lemma message_body_open (Lev : bpfEvent.layout) event record :
  exists event' out,
    readLoopSipMessages_body Lev event (ReadOk record) = Continue event' out.
Proof.
  unfold readLoopSipMessages_body.
  destruct (binary_Read _ _ _); [eauto|].
  destruct (comm_is_sipp _); eauto.
Qed.

Lemma tcpclose_body_open o (Ltcp : bpfTcpevent.layout) event record :
  exists event' out,
    readLoopTcpClose_body o Ltcp event (ReadOk record) = Continue event' out.
Proof.
  unfold readLoopTcpClose_body.
  destruct (binary_Read _ _ _); [eauto|].
  destruct (comm_is_sipp _); eauto.
Qed.

(** C6.  Each loop is left exactly when a read returns an error that is
    [ErrClosed]: the function then returns having logged no error (nothing
    at all in the perf loop, the exit notice in the two ring-buffer loops);
    any other read error is logged and the loop goes on with its variable
    unchanged; a successful read never leaves the loop.  So a loop run against
    a sequence of read results has returned if and only if one of them was
    the closed result. *)
Theorem loop_returns_iff_closed
    (NativeEndian : ByteOrder) (Llat : bpfLatdata.layout)
    (Lev : bpfEvent.layout) (Ltcp : bpfTcpevent.layout) :
  ((forall event err, errors_Is_ErrClosed err = true ->
      readLoopTcpLatency_body Llat event (ReadErr err) = Return [])
   /\ (forall event err, errors_Is_ErrClosed err = false ->
      readLoopTcpLatency_body Llat event (ReadErr err)
      = Continue event
          [ReadErrorLog
             (log_Output ("reading from perf event reader: " ++ Error err))])
   /\ (forall event record, exists event' out,
      readLoopTcpLatency_body Llat event (ReadOk record) = Continue event' out)
   /\ (forall reads,
      snd (readLoopTcpLatency Llat reads) = None
      <-> existsb is_closed reads = true))
  /\ ((forall event err, errors_Is_ErrClosed err = true ->
      readLoopSipMessages_body Lev event (ReadErr err)
      = Return [ExitLog (log_Output "Received signal, exiting..")])
   /\ (forall event err, errors_Is_ErrClosed err = false ->
      readLoopSipMessages_body Lev event (ReadErr err)
      = Continue event
          [ReadErrorLog (log_Output ("reading from reader: " ++ Error err))])
   /\ (forall event record, exists event' out,
      readLoopSipMessages_body Lev event (ReadOk record) = Continue event' out)
   /\ (forall reads,
      snd (readLoopSipMessages Lev reads) = None
      <-> existsb is_closed reads = true))
  /\ ((forall event err, errors_Is_ErrClosed err = true ->
      readLoopTcpClose_body NativeEndian Ltcp event (ReadErr err)
      = Return [ExitLog (log_Output "received signal, exiting..")])
   /\ (forall event err, errors_Is_ErrClosed err = false ->
      readLoopTcpClose_body NativeEndian Ltcp event (ReadErr err)
      = Continue event
          [ReadErrorLog (log_Output ("reading from reader: " ++ Error err))])
   /\ (forall event record, exists event' out,
      readLoopTcpClose_body NativeEndian Ltcp event (ReadOk record)
      = Continue event' out)
   /\ (forall reads,
      snd (readLoopTcpClose NativeEndian Ltcp reads) = None
      <-> existsb is_closed reads = true))
  /\ forallb (fun e => negb (is_diagnostic e))
       [ExitLog (log_Output "Received signal, exiting..");
        ExitLog (log_Output "received signal, exiting..")] = true.
Proof.
  assert (Hlat : forall event err, errors_Is_ErrClosed err = true ->
             readLoopTcpLatency_body Llat event (ReadErr err) = Return []).
  { intros event err H. cbn. rewrite H. reflexivity. }
  assert (Hsip : forall event err, errors_Is_ErrClosed err = true ->
             readLoopSipMessages_body Lev event (ReadErr err)
             = Return [ExitLog (log_Output "Received signal, exiting..")]).
  { intros event err H. cbn. rewrite H. reflexivity. }
  assert (Htcp : forall event err, errors_Is_ErrClosed err = true ->
             readLoopTcpClose_body NativeEndian Ltcp event (ReadErr err)
             = Return [ExitLog (log_Output "received signal, exiting..")]).
  { intros event err H. cbn. rewrite H. reflexivity. }
  repeat match goal with |- _ /\ _ => split end;
    try assumption; try reflexivity;
    try (intros event err H; cbn; rewrite H; reflexivity);
    try apply latency_body_open; try apply message_body_open;
    try apply tcpclose_body_open.
  - intros reads. apply run_loop_returns.
    + intros s [record|err] H; [discriminate|]. eauto.
    + intros s [record|err] H;
        [apply latency_body_open
        |cbn in H |- *; rewrite H; eauto].
  - intros reads. apply run_loop_returns.
    + intros s [record|err] H; [discriminate|]. eauto.
    + intros s [record|err] H;
        [apply message_body_open
        |cbn in H |- *; rewrite H; eauto].
  - intros reads. apply run_loop_returns.
    + intros s [record|err] H; [discriminate|]. eauto.
    + intros s [record|err] H;
        [apply tcpclose_body_open
        |cbn in H |- *; rewrite H; eauto].
Qed.

Lemma loop_returns_iff_closed_witness :
  errors_Is_ErrClosed (wrapError "epoll wait: file already closed" ErrClosed)
  = true
  /\ readLoopTcpLatency_body latdata_layout (bpfLatdata.zero latdata_layout)
       (ReadErr (wrapError "epoll wait: file already closed" ErrClosed))
     = Return [].
Proof.
  split; [reflexivity|].
  apply (proj1 (proj1 (loop_returns_iff_closed
                         LittleEndian latdata_layout event_layout
                         tcpevent_layout))).
  reflexivity.
Defined.

(** ** The filter on the process name *)

Lemma latdata_Comm_length (Llat : bpfLatdata.layout) o raw event' :
  bpfLatdata.wf Llat = true ->
  binary_Read raw (bpfLatdata.size Llat) (bpfLatdata.value Llat o)
  = inr event' ->
  (4 <= List.length (bpfLatdata.Comm event'))%nat.
Proof.
  unfold bpfLatdata.wf. rewrite !andb_true_iff.
  intros [[_ Hc] H4] Hd. apply binary_Read_inv in Hd as [Hs ->].
  cbn. rewrite (get_arr_length _ _ _ Hc Hs). apply Nat.leb_le, H4.
Qed.

Lemma event_Comm_length (Lev : bpfEvent.layout) o raw event' :
  bpfEvent.wf Lev = true ->
  binary_Read raw (bpfEvent.size Lev) (bpfEvent.value Lev o) = inr event' ->
  (4 <= List.length (bpfEvent.Comm event'))%nat.
Proof.
  unfold bpfEvent.wf. rewrite !andb_true_iff.
  intros [[[_ Hc] _] H4] Hd. apply binary_Read_inv in Hd as [Hs ->].
  cbn. rewrite (get_arr_length _ _ _ Hc Hs). apply Nat.leb_le, H4.
Qed.

Lemma tcpevent_Comm_length (Ltcp : bpfTcpevent.layout) o raw event' :
  bpfTcpevent.wf Ltcp = true ->
  binary_Read raw (bpfTcpevent.size Ltcp) (bpfTcpevent.value Ltcp o)
  = inr event' ->
  (4 <= List.length (bpfTcpevent.Comm event'))%nat.
Proof.
  unfold bpfTcpevent.wf. rewrite !andb_true_iff.
  intros [[_ Hc] H4] Hd. apply binary_Read_inv in Hd as [Hs ->].
  cbn. rewrite (get_arr_length _ _ _ Hc Hs). apply Nat.leb_le, H4.
Qed.

(** C1.  For an event that was decoded, in each of the three loops: when the
    first four bytes of the process-name field are those of "sipp" the turn
    logs exactly one entry, the event line; otherwise it logs nothing.  In
    both cases the loop goes on, holding the decoded event. *)
Theorem event_line_iff_sipp
    (NativeEndian : ByteOrder) (Llat : bpfLatdata.layout)
    (Lev : bpfEvent.layout) (Ltcp : bpfTcpevent.layout) :
  bpfLatdata.wf Llat = true ->
  bpfEvent.wf Lev = true ->
  bpfTcpevent.wf Ltcp = true ->
  (forall event record event',
      perf.LostSamples record = 0%N ->
      binary_Read (perf.RawSample record) (bpfLatdata.size Llat)
        (bpfLatdata.value Llat LittleEndian) = inr event' ->
      (firstn 4 (bpfLatdata.Comm event') = sipp ->
       readLoopTcpLatency_body Llat event (ReadOk record)
       = Continue event' [EventLine (latency_line event')])
      /\ (firstn 4 (bpfLatdata.Comm event') <> sipp ->
          readLoopTcpLatency_body Llat event (ReadOk record)
          = Continue event' []))
  /\ (forall event record event',
      binary_Read (ringbuf.RawSample record) (bpfEvent.size Lev)
        (bpfEvent.value Lev LittleEndian) = inr event' ->
      (firstn 4 (bpfEvent.Comm event') = sipp ->
       readLoopSipMessages_body Lev event (ReadOk record)
       = Continue event' [EventLine (message_line event')])
      /\ (firstn 4 (bpfEvent.Comm event') <> sipp ->
          readLoopSipMessages_body Lev event (ReadOk record)
          = Continue event' []))
  /\ (forall tcpevent record tcpevent',
      binary_Read (ringbuf.RawSample record) (bpfTcpevent.size Ltcp)
        (bpfTcpevent.value Ltcp NativeEndian) = inr tcpevent' ->
      (firstn 4 (bpfTcpevent.Comm tcpevent') = sipp ->
       readLoopTcpClose_body NativeEndian Ltcp tcpevent (ReadOk record)
       = Continue tcpevent'
           [EventLine (tcpclose_line NativeEndian tcpevent')])
      /\ (firstn 4 (bpfTcpevent.Comm tcpevent') <> sipp ->
          readLoopTcpClose_body NativeEndian Ltcp tcpevent (ReadOk record)
          = Continue tcpevent' [])).
Proof.
  intros Wlat Wev Wtcp. split; [|split].
  - intros event record event' Hlost Hd.
    pose proof (latdata_Comm_length _ _ _ _ Wlat Hd) as H4.
    unfold readLoopTcpLatency_body. rewrite Hlost, Hd. cbn [N.eqb negb].
    split; intros H.
    + apply comm_is_sipp_spec in H; [|assumption]. rewrite H. reflexivity.
    + rewrite comm_is_sipp_false by assumption. reflexivity.
  - intros event record event' Hd.
    pose proof (event_Comm_length _ _ _ _ Wev Hd) as H4.
    unfold readLoopSipMessages_body. rewrite Hd.
    split; intros H.
    + apply comm_is_sipp_spec in H; [|assumption]. rewrite H. reflexivity.
    + rewrite comm_is_sipp_false by assumption. reflexivity.
  - intros event record event' Hd.
    pose proof (tcpevent_Comm_length _ _ _ _ Wtcp Hd) as H4.
    unfold readLoopTcpClose_body. rewrite Hd.
    split; intros H.
    + apply comm_is_sipp_spec in H; [|assumption]. rewrite H. reflexivity.
    + rewrite comm_is_sipp_false by assumption. reflexivity.
Qed.

(** The filter on the records of the samples: "sipp" passes, "curl" and a
    name of zero bytes do not. *)
Lemma event_line_iff_sipp_witness :
  (bpfLatdata.wf latdata_layout = true
   /\ bpfEvent.wf event_layout = true
   /\ bpfTcpevent.wf tcpevent_layout = true)
  /\ readLoopTcpLatency_body latdata_layout (bpfLatdata.zero latdata_layout)
       (ReadOk {| perf.RawSample := latency_raw "curl"; perf.LostSamples := 0 |})
     = Continue
         (bpfLatdata.value latdata_layout LittleEndian (latency_raw "curl")) []
  /\ readLoopTcpClose_body LittleEndian tcpevent_layout
       (bpfTcpevent.zero tcpevent_layout)
       (ReadOk {| ringbuf.RawSample := tcpclose_raw "" |})
     = Continue
         (bpfTcpevent.value tcpevent_layout LittleEndian (tcpclose_raw "")) []
  /\ readLoopSipMessages_body event_layout (bpfEvent.zero event_layout)
       (ReadOk {| ringbuf.RawSample := message_raw "sipp" |})
     = Continue
         (bpfEvent.value event_layout LittleEndian (message_raw "sipp"))
         [EventLine
            (message_line
               (bpfEvent.value event_layout LittleEndian (message_raw "sipp")))].
Proof.
  pose proof (event_line_iff_sipp LittleEndian latdata_layout event_layout
                tcpevent_layout eq_refl eq_refl eq_refl) as [Hlat [Hev Htcp]].
  split; [repeat split|]. split; [|split].
  - apply (Hlat _ {| perf.RawSample := latency_raw "curl";
                     perf.LostSamples := 0 |}); [reflexivity|reflexivity|].
    vm_compute. discriminate.
  - apply (Htcp _ {| ringbuf.RawSample := tcpclose_raw "" |}); [reflexivity|].
    vm_compute. discriminate.
  - apply (Hev _ {| ringbuf.RawSample := message_raw "sipp" |});
      reflexivity.
Defined.

(** C9.  The filter looks at the first four bytes of the process-name field
    only: a decoded event whose field is "sipp" followed by any bytes is
    printed, also when those bytes are not the zero padding, when the field
    as a whole is not "sipp" padded with zeros. *)
Theorem sipp_prefix_passes
    (NativeEndian : ByteOrder) (Llat : bpfLatdata.layout)
    (Lev : bpfEvent.layout) (Ltcp : bpfTcpevent.layout)
    (suffix : list byte) :
  (forall event record event',
      perf.LostSamples record = 0%N ->
      binary_Read (perf.RawSample record) (bpfLatdata.size Llat)
        (bpfLatdata.value Llat LittleEndian) = inr event' ->
      bpfLatdata.Comm event' = (sipp ++ suffix)%list ->
      readLoopTcpLatency_body Llat event (ReadOk record)
      = Continue event' [EventLine (latency_line event')])
  /\ (forall event record event',
      binary_Read (ringbuf.RawSample record) (bpfEvent.size Lev)
        (bpfEvent.value Lev LittleEndian) = inr event' ->
      bpfEvent.Comm event' = (sipp ++ suffix)%list ->
      readLoopSipMessages_body Lev event (ReadOk record)
      = Continue event' [EventLine (message_line event')])
  /\ (forall tcpevent record tcpevent',
      binary_Read (ringbuf.RawSample record) (bpfTcpevent.size Ltcp)
        (bpfTcpevent.value Ltcp NativeEndian) = inr tcpevent' ->
      bpfTcpevent.Comm tcpevent' = (sipp ++ suffix)%list ->
      readLoopTcpClose_body NativeEndian Ltcp tcpevent (ReadOk record)
      = Continue tcpevent'
          [EventLine (tcpclose_line NativeEndian tcpevent')])
  /\ (suffix <> repeat x00 (List.length suffix) ->
      (sipp ++ suffix)%list
      <> (sipp ++ repeat x00 (List.length (sipp ++ suffix) - 4))%list).
Proof.
  split; [|split; [|split]].
  - intros event record event' Hlost Hd Hc.
    unfold readLoopTcpLatency_body. rewrite Hlost, Hd, Hc.
    reflexivity.
  - intros event record event' Hd Hc.
    unfold readLoopSipMessages_body. rewrite Hd, Hc. reflexivity.
  - intros event record event' Hd Hc.
    unfold readLoopTcpClose_body. rewrite Hd, Hc. reflexivity.
  - intros Hne E. apply app_inv_head in E. apply Hne.
    rewrite E at 1. rewrite length_app. f_equal. cbn. lia.
Qed.

(** A process named "sippx": the latency line is printed, with that name. *)
Lemma sipp_prefix_passes_witness :
  bpfLatdata.Comm
    (bpfLatdata.value latdata_layout LittleEndian (latency_raw "sippx"))
  = (sipp ++ x78 :: repeat x00 11)%list
  /\ readLoopTcpLatency_body latdata_layout (bpfLatdata.zero latdata_layout)
       (ReadOk {| perf.RawSample := latency_raw "sippx";
                  perf.LostSamples := 0 |})
     = Continue
         (bpfLatdata.value latdata_layout LittleEndian (latency_raw "sippx"))
         [EventLine ("Latency: 1.50" ++ TAB ++ "comm: sippx" ++ NL)].
Proof.
  split; [reflexivity|].
  apply (proj1 (sipp_prefix_passes LittleEndian latdata_layout event_layout
                  tcpevent_layout (x78 :: repeat x00 11)) _
           {| perf.RawSample := latency_raw "sippx"; perf.LostSamples := 0 |});
    reflexivity.
Defined.

(** ** Byte order *)

Lemma lor_shiftl_add (a b n : Z) :
  0 <= n -> 0 <= a < 2 ^ n -> Z.lor a (Z.shiftl b n) = a + b * 2 ^ n.
Proof.
  intros Hn Ha.
  rewrite <- Z.shiftl_mul_pow2 by assumption.
  rewrite <- Z.add_lor_land.
  replace (Z.land a (Z.shiftl b n)) with 0; [lia|].
  symmetry. apply Z.bits_inj'. intros i Hi.
  rewrite Z.land_spec, Z.bits_0.
  destruct (Z.lt_ge_cases i n) as [Hlt|Hge].
  - rewrite (Z.shiftl_spec_low b n i) by assumption. apply andb_false_r.
  - rewrite <- (Z.mod_small a (2 ^ n)) by assumption.
    rewrite Z.mod_pow2_bits_high by lia. reflexivity.
Qed.

(** Turns the chain of [|] and [<<] of a [UintN] into a sum. *)
Ltac lor_chain :=
  repeat match goal with
         | |- context [u8 ?b] =>
           lazymatch goal with
           | _ : 0 <= u8 b < 256 |- _ => fail
           | _ => pose proof (u8_range b)
           end
         end;
  rewrite ?(lor_shiftl_add _ _ 8) by lia;
  rewrite ?(lor_shiftl_add _ _ 16) by lia;
  rewrite ?(lor_shiftl_add _ _ 24) by lia;
  rewrite ?(lor_shiftl_add _ _ 32) by lia;
  rewrite ?(lor_shiftl_add _ _ 40) by lia;
  rewrite ?(lor_shiftl_add _ _ 48) by lia;
  rewrite ?(lor_shiftl_add _ _ 56) by lia.

Lemma Uint16_value o b0 b1 :
  Uint16 o [b0; b1] = order_value o [b0; b1].
Proof.
  destruct o; unfold Uint16, littleEndian.Uint16, bigEndian.Uint16, idx;
    cbn [nth order_value be_value rev app le_value]; lor_chain; lia.
Qed.

Lemma Uint32_value o b0 b1 b2 b3 :
  Uint32 o [b0; b1; b2; b3] = order_value o [b0; b1; b2; b3].
Proof.
  destruct o; unfold Uint32, littleEndian.Uint32, bigEndian.Uint32, idx;
    cbn [nth order_value be_value rev app le_value]; lor_chain; lia.
Qed.

Lemma Uint64_value o b0 b1 b2 b3 b4 b5 b6 b7 :
  Uint64 o [b0; b1; b2; b3; b4; b5; b6; b7]
  = order_value o [b0; b1; b2; b3; b4; b5; b6; b7].
Proof.
  destruct o; unfold Uint64, littleEndian.Uint64, bigEndian.Uint64, idx;
    cbn [nth order_value be_value rev app le_value]; lor_chain; lia.
Qed.

Lemma order_value_single o b : order_value o [b] = u8 b.
Proof. destruct o; cbn; lia. Qed.

(** Lists of a known length, taken apart. *)
Ltac explode l H :=
  repeat (destruct l as [|? l]; cbn in H; try (exfalso; lia)).

(** What [decoder.value] computes for an integer field is the positional
    value of its bytes under the decoder's order, as the field's type. *)
Lemma decode_int_value o k (bs : list byte) :
  List.length bs = kind_size k ->
  decode_int o k bs
  = let v := order_value o bs in
    if signed_kind k then to_signed (kind_size k) v else v.
Proof.
  intros H. destruct k; cbn in H; explode bs H;
    cbn [decode_int signed_kind kind_size];
    rewrite ?Uint16_value, ?Uint32_value, ?Uint64_value;
    unfold idx; cbn [nth]; rewrite ?order_value_single; reflexivity.
Qed.

Lemma get_int_value o f size raw :
  int_fits f size = true -> (size <= List.length raw)%nat ->
  get_int o f (firstn size raw) = field_value o f raw.
Proof.
  unfold int_fits, get_int, field_value. intros Hf Hs.
  apply Nat.leb_le in Hf.
  rewrite slice_firstn by assumption.
  apply decode_int_value, slice_length. lia.
Qed.

Lemma get_arr_value f size raw :
  arr_fits f size = true ->
  get_arr f (firstn size raw) = slice raw (arr_off f) (arr_len f).
Proof.
  unfold arr_fits, get_arr. intros Hf. apply Nat.leb_le in Hf.
  apply slice_firstn. assumption.
Qed.

(** C2.  The byte order of each kind of event.  Whatever the byte order of
    the host, the integers of a latency event and of a message event are the
    little-endian values of the bytes their fields occupy in the raw record;
    those of a connection-close event are the values of these bytes in the
    byte order of the host.  The byte arrays are the bytes of their fields. *)
Theorem decoding_byte_order
    (NativeEndian : ByteOrder) (Llat : bpfLatdata.layout)
    (Lev : bpfEvent.layout) (Ltcp : bpfTcpevent.layout) :
  bpfLatdata.wf Llat = true ->
  bpfEvent.wf Lev = true ->
  bpfTcpevent.wf Ltcp = true ->
  (forall event raw,
      (bpfLatdata.size Llat <= List.length raw)%nat ->
      exists event' out,
        readLoopTcpLatency_body Llat event
          (ReadOk {| perf.RawSample := raw; perf.LostSamples := 0 |})
        = Continue event' out
        /\ bpfLatdata.DeltaUs event'
           = field_value LittleEndian (bpfLatdata.DeltaUs_f Llat) raw
        /\ bpfLatdata.Comm event'
           = slice raw (arr_off (bpfLatdata.Comm_f Llat))
               (arr_len (bpfLatdata.Comm_f Llat)))
  /\ (forall event raw,
      (bpfEvent.size Lev <= List.length raw)%nat ->
      exists event' out,
        readLoopSipMessages_body Lev event
          (ReadOk {| ringbuf.RawSample := raw |})
        = Continue event' out
        /\ bpfEvent.Pid event'
           = field_value LittleEndian (bpfEvent.Pid_f Lev) raw
        /\ bpfEvent.Fd event'
           = field_value LittleEndian (bpfEvent.Fd_f Lev) raw
        /\ bpfEvent.Len event'
           = field_value LittleEndian (bpfEvent.Len_f Lev) raw
        /\ bpfEvent.Comm event'
           = slice raw (arr_off (bpfEvent.Comm_f Lev))
               (arr_len (bpfEvent.Comm_f Lev))
        /\ bpfEvent.Msg event'
           = slice raw (arr_off (bpfEvent.Msg_f Lev))
               (arr_len (bpfEvent.Msg_f Lev)))
  /\ (forall tcpevent raw,
      (bpfTcpevent.size Ltcp <= List.length raw)%nat ->
      exists tcpevent' out,
        readLoopTcpClose_body NativeEndian Ltcp tcpevent
          (ReadOk {| ringbuf.RawSample := raw |})
        = Continue tcpevent' out
        /\ bpfTcpevent.Saddr tcpevent'
           = field_value NativeEndian (bpfTcpevent.Saddr_f Ltcp) raw
        /\ bpfTcpevent.Daddr tcpevent'
           = field_value NativeEndian (bpfTcpevent.Daddr_f Ltcp) raw
        /\ bpfTcpevent.Sport tcpevent'
           = field_value NativeEndian (bpfTcpevent.Sport_f Ltcp) raw
        /\ bpfTcpevent.Dport tcpevent'
           = field_value NativeEndian (bpfTcpevent.Dport_f Ltcp) raw
        /\ bpfTcpevent.Srtt tcpevent'
           = field_value NativeEndian (bpfTcpevent.Srtt_f Ltcp) raw
        /\ bpfTcpevent.Comm tcpevent'
           = slice raw (arr_off (bpfTcpevent.Comm_f Ltcp))
               (arr_len (bpfTcpevent.Comm_f Ltcp))).
Proof.
  unfold bpfLatdata.wf, bpfEvent.wf, bpfTcpevent.wf.
  rewrite !andb_true_iff.
  intros [[Hl1 Hl2] _] [[[[[He1 He2] He3] He4] He5] _]
         [[[[[[Ht1 Ht2] Ht3] Ht4] Ht5] Ht6] _].
  split; [|split].
  - intros event raw Hs.
    unfold readLoopTcpLatency_body. cbn [perf.LostSamples perf.RawSample N.eqb negb].
    rewrite binary_Read_ok by assumption.
    destruct (comm_is_sipp _); do 2 eexists; (split; [reflexivity|]);
      cbn [bpfLatdata.value bpfLatdata.DeltaUs bpfLatdata.Comm];
      rewrite get_int_value, get_arr_value by assumption; auto.
  - intros event raw Hs.
    unfold readLoopSipMessages_body. cbn [ringbuf.RawSample].
    rewrite binary_Read_ok by assumption.
    destruct (comm_is_sipp _); do 2 eexists; (split; [reflexivity|]);
      cbn [bpfEvent.value bpfEvent.Pid bpfEvent.Fd bpfEvent.Len
           bpfEvent.Comm bpfEvent.Msg];
      rewrite !get_int_value, !get_arr_value by assumption; auto 10.
  - intros event raw Hs.
    unfold readLoopTcpClose_body. cbn [ringbuf.RawSample].
    rewrite binary_Read_ok by assumption.
    destruct (comm_is_sipp _); do 2 eexists; (split; [reflexivity|]);
      cbn [bpfTcpevent.value bpfTcpevent.Saddr bpfTcpevent.Daddr
           bpfTcpevent.Sport bpfTcpevent.Dport bpfTcpevent.Srtt
           bpfTcpevent.Comm];
      rewrite !get_int_value, !get_arr_value by assumption; auto 10.
Qed.

(** On a big-endian host the latency record is still read as little-endian
    (its bytes dc 05 00 .. are 1500), while the connection-close record is
    read in the host's order (its bytes c4 09 00 00 are then 3288924160, not
    2500). *)
Lemma decoding_byte_order_witness :
  (bpfLatdata.wf latdata_layout = true
   /\ bpfEvent.wf event_layout = true
   /\ bpfTcpevent.wf tcpevent_layout = true)
  /\ (exists event' out,
        readLoopTcpLatency_body latdata_layout (bpfLatdata.zero latdata_layout)
          (ReadOk {| perf.RawSample := latency_raw "sipp";
                     perf.LostSamples := 0 |})
        = Continue event' out
        /\ bpfLatdata.DeltaUs event' = 1500)
  /\ (exists tcpevent' out,
        readLoopTcpClose_body BigEndian tcpevent_layout
          (bpfTcpevent.zero tcpevent_layout)
          (ReadOk {| ringbuf.RawSample := tcpclose_raw "sipp" |})
        = Continue tcpevent' out
        /\ bpfTcpevent.Srtt tcpevent' = 3288924160).
Proof.
  pose proof (decoding_byte_order BigEndian latdata_layout event_layout
                tcpevent_layout eq_refl eq_refl eq_refl) as [Hlat [_ Htcp]].
  split; [repeat split|]. split.
  - destruct (Hlat (bpfLatdata.zero latdata_layout) (latency_raw "sipp"))
      as [event' [out [Hb [Hv _]]]]; [vm_compute; lia|].
    exists event', out. split; [exact Hb|]. rewrite Hv. reflexivity.
  - destruct (Htcp (bpfTcpevent.zero tcpevent_layout) (tcpclose_raw "sipp"))
      as [event' [out [Hb [_ [_ [_ [_ [Hv _]]]]]]]]; [vm_compute; lia|].
    exists event', out. split; [exact Hb|]. rewrite Hv. reflexivity.
Defined.

(** ** intToIP *)

Lemma u8_byte_of_Z (v : Z) : u8 (byte_of_Z v) = v mod 256.
Proof.
  unfold byte_of_Z, u8.
  pose proof (Z.mod_pos_bound v 256 ltac:(lia)) as Hm.
  destruct (Byte.of_N (Z.to_N (v mod 256))) as [b|] eqn:E.
  - apply Byte.to_of_N in E. rewrite E. lia.
  - apply Byte.of_N_None_iff in E. lia.
Qed.

Lemma byte_of_Z_eq (v : Z) (b : byte) : v mod 256 = u8 b -> byte_of_Z v = b.
Proof.
  intros H. apply u8_inj. rewrite u8_byte_of_Z. exact H.
Qed.

Lemma PutUint32_length o n : List.length (PutUint32 o n) = 4%nat.
Proof. destruct o; reflexivity. Qed.

(** Decoding what [PutUint32] wrote gives the number back. *)
Lemma Uint32_PutUint32 o n :
  0 <= n < 2 ^ 32 -> Uint32 o (PutUint32 o n) = n.
Proof.
  intros H.
  destruct o; unfold PutUint32, littleEndian.PutUint32, bigEndian.PutUint32;
    rewrite Uint32_value;
    cbn [order_value be_value rev app le_value];
    rewrite !u8_byte_of_Z, !Z.shiftr_div_pow2 by lia;
    change (2 ^ 8) with 256; change (2 ^ 16) with 65536;
    change (2 ^ 24) with 16777216; change (2 ^ 32) with 4294967296 in H;
    Z.div_mod_to_equations; lia.
Qed.

(** Writing what [Uint32] read gives the four bytes back. *)
Lemma PutUint32_Uint32 o b0 b1 b2 b3 :
  PutUint32 o (Uint32 o [b0; b1; b2; b3]) = [b0; b1; b2; b3].
Proof.
  rewrite Uint32_value.
  pose proof (u8_range b0); pose proof (u8_range b1);
  pose proof (u8_range b2); pose proof (u8_range b3).
  destruct o; unfold PutUint32, littleEndian.PutUint32, bigEndian.PutUint32;
    cbn [order_value be_value rev app le_value];
    repeat f_equal; apply byte_of_Z_eq;
    rewrite ?Z.shiftr_div_pow2 by lia;
    change (2 ^ 8) with 256; change (2 ^ 16) with 65536;
    change (2 ^ 24) with 16777216;
    Z.div_mod_to_equations; lia.
Qed.

Lemma intToIP_get_int o off size raw :
  int_fits {| int_off := off; int_kind := KUint32 |} size = true ->
  (size <= List.length raw)%nat ->
  intToIP o (get_int o {| int_off := off; int_kind := KUint32 |}
               (firstn size raw))
  = slice raw off 4.
Proof.
  unfold int_fits, get_int, intToIP. cbn [int_off int_kind kind_size decode_int].
  intros Hf Hs. apply Nat.leb_le in Hf.
  rewrite slice_firstn by assumption.
  pose proof (slice_length raw off 4 ltac:(lia)) as Hl.
  remember (slice raw off 4) as bs eqn:E. clear E.
  explode bs Hl. apply PutUint32_Uint32.
Qed.

(** C10.  [intToIP n] is the four bytes that, read in the byte order of the
    host, are [n].  Applied to an address decoded from a connection-close
    record, in that same order, it gives back the four bytes of the address
    field as they lie in the record, and these are the bytes the line
    prints. *)
Theorem intToIP_native_roundtrip (NativeEndian : ByteOrder) :
  (forall n, 0 <= n < 2 ^ 32 ->
      List.length (intToIP NativeEndian n) = 4%nat
      /\ order_value NativeEndian (intToIP NativeEndian n) = n)
  /\ (forall Ltcp tcpevent raw,
      bpfTcpevent.wf Ltcp = true ->
      (bpfTcpevent.size Ltcp <= List.length raw)%nat ->
      exists tcpevent' out,
        readLoopTcpClose_body NativeEndian Ltcp tcpevent
          (ReadOk {| ringbuf.RawSample := raw |})
        = Continue tcpevent' out
        /\ intToIP NativeEndian (bpfTcpevent.Saddr tcpevent')
           = slice raw (bpfTcpevent.Saddr_off Ltcp) 4
        /\ intToIP NativeEndian (bpfTcpevent.Daddr tcpevent')
           = slice raw (bpfTcpevent.Daddr_off Ltcp) 4
        /\ tcpclose_line NativeEndian tcpevent'
           = log_Output
               (pad_right 15
                  (IP_String (slice raw (bpfTcpevent.Saddr_off Ltcp) 4))
                ++ " " ++ pad_right 6 (fmt_d (bpfTcpevent.Sport tcpevent'))
                ++ " -> "
                ++ pad_right 15
                     (IP_String (slice raw (bpfTcpevent.Daddr_off Ltcp) 4))
                ++ " " ++ pad_right 6 (fmt_d (bpfTcpevent.Dport tcpevent'))
                ++ " " ++ fmt_ms (bpfTcpevent.Srtt tcpevent') ++ " "
                ++ pad_right 6
                     (ByteSliceToString (bpfTcpevent.Comm tcpevent')))).
Proof.
  split.
  - intros n Hn. unfold intToIP. split; [apply PutUint32_length|].
    transitivity (Uint32 NativeEndian (PutUint32 NativeEndian n));
      [|apply Uint32_PutUint32; assumption].
    destruct NativeEndian; symmetry; apply Uint32_value.
  - intros Ltcp tcpevent raw Hwf Hs.
    unfold bpfTcpevent.wf in Hwf. rewrite !andb_true_iff in Hwf.
    destruct Hwf as [[[[[[Ht1 Ht2] _] _] _] _] _].
    unfold readLoopTcpClose_body. cbn [ringbuf.RawSample].
    rewrite binary_Read_ok by assumption.
    assert (Hsa : intToIP NativeEndian
                    (bpfTcpevent.Saddr
                       (bpfTcpevent.value Ltcp NativeEndian
                          (firstn (bpfTcpevent.size Ltcp) raw)))
                  = slice raw (bpfTcpevent.Saddr_off Ltcp) 4)
      by (apply intToIP_get_int; assumption).
    assert (Hda : intToIP NativeEndian
                    (bpfTcpevent.Daddr
                       (bpfTcpevent.value Ltcp NativeEndian
                          (firstn (bpfTcpevent.size Ltcp) raw)))
                  = slice raw (bpfTcpevent.Daddr_off Ltcp) 4)
      by (apply intToIP_get_int; assumption).
    destruct (comm_is_sipp _); do 2 eexists; (split; [reflexivity|]);
      (split; [exact Hsa|]); (split; [exact Hda|]);
      unfold tcpclose_line; rewrite Hsa, Hda; reflexivity.
Qed.

(** The address 10.0.0.1 is printed from the bytes 0a 00 00 01 of the record
    on a host of either byte order. *)
Lemma intToIP_native_roundtrip_witness :
  (0 <= 16777226 < 2 ^ 32
   /\ bpfTcpevent.wf tcpevent_layout = true
   /\ (bpfTcpevent.size tcpevent_layout
       <= List.length (tcpclose_raw "sipp"))%nat)
  /\ order_value LittleEndian (intToIP LittleEndian 16777226) = 16777226
  /\ (exists tcpevent' out,
        readLoopTcpClose_body BigEndian tcpevent_layout
          (bpfTcpevent.zero tcpevent_layout)
          (ReadOk {| ringbuf.RawSample := tcpclose_raw "sipp" |})
        = Continue tcpevent' out
        /\ intToIP BigEndian (bpfTcpevent.Saddr tcpevent')
           = [x0a; x00; x00; x01]).
Proof.
  split; [split; [lia|split; [reflexivity|vm_compute; lia]]|].
  split.
  - apply (proj1 (intToIP_native_roundtrip LittleEndian) 16777226). lia.
  - destruct (proj2 (intToIP_native_roundtrip BigEndian) tcpevent_layout
                (bpfTcpevent.zero tcpevent_layout) (tcpclose_raw "sipp")
                eq_refl) as [event' [out [Hb [Hs _]]]]; [vm_compute; lia|].
    exists event', out. split; [exact Hb|]. rewrite Hs. reflexivity.
Defined.

(** ** main *)

(** What [main] has done when it starts to wait for a signal. *)
Lemma main_startup (fails : Call -> option error) (signalled : bool) :
  (forall c, fails c = None) ->
  main_body fails signalled {| trace := []; deferred := [] |}
  = if signalled
    then ({| trace :=
               [Notify; Called RemoveMemlock; Called (Open objs);
                Called (Open kp1); Called (Open kp2); Called (Open kp3);
                Called (Open kp4); Called (Open link); Called (Open rd1);
                Called (Open rd2); Called (Open rd3);
                Printf (log_Output "Listening for events..");
                Go SipMessages; Go TcpClose; Go TcpLatency; Received];
             deferred := [rd3; rd2; rd1; link; kp4; kp3; kp2; kp1; objs] |},
          inl tt)
    else ({| trace :=
               [Notify; Called RemoveMemlock; Called (Open objs);
                Called (Open kp1); Called (Open kp2); Called (Open kp3);
                Called (Open kp4); Called (Open link); Called (Open rd1);
                Called (Open rd2); Called (Open rd3);
                Printf (log_Output "Listening for events..");
                Go SipMessages; Go TcpClose; Go TcpLatency];
             deferred := [rd3; rd2; rd1; link; kp4; kp3; kp2; kp1; objs] |},
          inr Blocked).
Proof.
  intros H. unfold main_body, call, wait_stopper. rewrite !H.
  destruct signalled; reflexivity.
Qed.

(** C7.  When every acquisition has succeeded and the termination signal
    arrives, [main] closes what it opened in the reverse order of opening:
    the perf reader, the second and the first ring-buffer reader, the
    tracing link, the kprobes from the fourth to the first, and the loaded
    objects; then the process ends.  Nothing is closed before the signal. *)
Theorem shutdown_closes_in_reverse_order (fails : Call -> option error) :
  (forall c, fails c = None) ->
  opened (fst (main fails true))
  = [objs; kp1; kp2; kp3; kp4; link; rd1; rd2; rd3]
  /\ closed (fst (main fails true))
     = [rd3; rd2; rd1; link; kp4; kp3; kp2; kp1; objs]
  /\ closed (fst (main fails true)) = rev (opened (fst (main fails true)))
  /\ (exists before,
        fst (main fails true)
        = (before ++ Received :: map Close (rev (opened before)))%list
        /\ closed before = [])
  /\ snd (main fails true) = Exit 0
  /\ closed (fst (main fails false)) = []
  /\ snd (main fails false) = Blocked.
Proof.
  intros H. unfold main. rewrite !main_startup by assumption.
  cbn [fst snd trace deferred].
  split; [reflexivity|]. split; [reflexivity|]. split; [reflexivity|].
  split; [|repeat split].
  exists [Notify; Called RemoveMemlock; Called (Open objs);
          Called (Open kp1); Called (Open kp2); Called (Open kp3);
          Called (Open kp4); Called (Open link); Called (Open rd1);
          Called (Open rd2); Called (Open rd3);
          Printf (log_Output "Listening for events..");
          Go SipMessages; Go TcpClose; Go TcpLatency].
  split; reflexivity.
Qed.

Lemma shutdown_closes_in_reverse_order_witness :
  (forall c, no_failure c = None)
  /\ closed (fst (main no_failure true))
     = [rd3; rd2; rd1; link; kp4; kp3; kp2; kp1; objs].
Proof.
  split; [reflexivity|].
  apply (shutdown_closes_in_reverse_order no_failure). reflexivity.
Defined.

(** A call that fails ends the process through [log.Fatalf]: whatever had
    been deferred by then is not run. *)
Lemma main_fatal_closes_nothing (fails : Call -> option error)
    (signalled : bool) (c : Call) (err : error) :
  fails c = Some err ->
  closed (fst (main fails signalled)) = []
  /\ snd (main fails signalled) = Exit 1.
Proof.
  intros Hc. unfold main, main_body, call, wait_stopper.
  destruct (fails RemoveMemlock) eqn:E0; [split; reflexivity|].
  destruct (fails (Open objs)) eqn:E1; [split; reflexivity|].
  destruct (fails (Open kp1)) eqn:E2; [split; reflexivity|].
  destruct (fails (Open kp2)) eqn:E3; [split; reflexivity|].
  destruct (fails (Open kp3)) eqn:E4; [split; reflexivity|].
  destruct (fails (Open kp4)) eqn:E5; [split; reflexivity|].
  destruct (fails (Open link)) eqn:E6; [split; reflexivity|].
  destruct (fails (Open rd1)) eqn:E7; [split; reflexivity|].
  destruct (fails (Open rd2)) eqn:E8; [split; reflexivity|].
  destruct (fails (Open rd3)) eqn:E9; [split; reflexivity|].
  destruct c as [|[]]; congruence.
Qed.

(** C8.  The run in which the second kprobe cannot be attached: the first
    kprobe and the loaded objects have been acquired and their [Close]
    deferred, yet the process ends with status 1 and neither is closed. *)
Theorem fatal_attach_leaves_probe_open :
  main (fails_at (Open kp2) (errorString "permission denied")) true
  = ([Notify; Called RemoveMemlock; Called (Open objs); Called (Open kp1);
      Fatal ("opening kprobe: permission denied" ++ NL)],
     Exit 1)
  /\ opened (fst (main (fails_at (Open kp2) (errorString "permission denied"))
                    true))
     = [objs; kp1]
  /\ closed (fst (main (fails_at (Open kp2) (errorString "permission denied"))
                    true))
     = [].
Proof. repeat split. Qed.

(** ** float64: conversions and quotients that stay finite *)

Lemma digits2_pos_size (p : positive) : digits2_pos p = Pos.size p.
Proof. induction p; cbn; congruence. Qed.

Lemma Zdigits2_log2 (m : Z) : 0 < m -> Zdigits2 m = Z.succ (Z.log2 m).
Proof.
  destruct m as [|p|p]; try lia. intros _.
  destruct p; cbn [Zdigits2 digits2_pos Z.log2];
    rewrite ?digits2_pos_size; lia.
Qed.

Lemma Zdigits2_nonneg (m : Z) : 0 <= Zdigits2 m.
Proof. destruct m; cbn; lia. Qed.

Lemma Zdigits2_gt (m : Z) : 0 <= m -> m < 2 ^ Zdigits2 m.
Proof.
  intros H. destruct (Z.eq_dec m 0) as [->|Hne]; [reflexivity|].
  rewrite Zdigits2_log2 by lia. apply Z.log2_spec. lia.
Qed.

Lemma Zdigits2_le_pow (m : Z) : 0 < m -> 2 ^ (Zdigits2 m - 1) <= m.
Proof.
  intros H. rewrite Zdigits2_log2 by lia.
  replace (Z.succ (Z.log2 m) - 1) with (Z.log2 m) by lia.
  apply Z.log2_spec. lia.
Qed.

(** A number below [2 ^ k] has at most [k] binary digits. *)
Lemma Zdigits2_le (m k : Z) : 0 <= m -> 0 <= k -> m < 2 ^ k -> Zdigits2 m <= k.
Proof.
  intros Hm Hk H. destruct (Z.eq_dec m 0) as [->|Hne]; [assumption|].
  rewrite Zdigits2_log2 by lia.
  apply Z.log2_lt_pow2 in H; lia.
Qed.

Lemma Zdigits2_succ (m : Z) : 0 <= m -> Zdigits2 (m + 1) <= Zdigits2 m + 1.
Proof.
  intros H. pose proof (Zdigits2_nonneg m) as Hd.
  apply Zdigits2_le; [lia|lia|].
  pose proof (Zdigits2_gt m H). rewrite Z.pow_add_r by lia. lia.
Qed.

Lemma Zdigits2_mono (a b : Z) : 0 <= a <= b -> Zdigits2 a <= Zdigits2 b.
Proof.
  intros H. apply Zdigits2_le; [lia|apply Zdigits2_nonneg|].
  pose proof (Zdigits2_gt b ltac:(lia)). lia.
Qed.

(** Dropping [n] low bits drops [n] digits, down to none. *)
Lemma Zdigits2_div_pow2 (m n : Z) :
  0 <= m -> 0 < n -> Zdigits2 (m / 2 ^ n) <= Z.max (Zdigits2 m - n) 0.
Proof.
  intros Hm Hn.
  assert (Hp : 0 < 2 ^ n) by (apply Z.pow_pos_nonneg; lia).
  apply Zdigits2_le; [apply Z.div_pos; lia|lia|].
  apply Z.div_lt_upper_bound; [assumption|].
  pose proof (Zdigits2_gt m Hm) as Hg. pose proof (Zdigits2_nonneg m) as Hd.
  rewrite <- Z.pow_add_r by lia.
  eapply Z.lt_le_trans; [exact Hg|].
  apply Z.pow_le_mono_r; lia.
Qed.

(** *** Shifting a mantissa right *)

Lemma shr_1_m (mrs : shr_record) :
  0 <= shr_m mrs -> shr_m (shr_1 mrs) = shr_m mrs / 2.
Proof.
  destruct mrs as [m r s]. cbn [shr_m]. intros H.
  rewrite <- Z.div2_div.
  destruct m as [|[p|p|]|p]; try lia; reflexivity.
Qed.

Lemma iter_shr_1_m (p : positive) (mrs : shr_record) :
  0 <= shr_m mrs ->
  shr_m (iter_pos shr_1 p mrs) = shr_m mrs / 2 ^ Zpos p.
Proof.
  revert mrs. induction p as [p IH|p IH|]; intros mrs H; cbn [iter_pos].
  - assert (H1 : 0 <= shr_m (shr_1 mrs))
      by (rewrite shr_1_m by assumption; apply Z.div_pos; lia).
    assert (Hp : 0 < 2 ^ Zpos p) by (apply Z.pow_pos_nonneg; lia).
    assert (H2 : 0 <= shr_m (iter_pos shr_1 p (shr_1 mrs)))
      by (rewrite IH by assumption; apply Z.div_pos; lia).
    rewrite IH, IH, shr_1_m by assumption.
    rewrite !Z.div_div by lia. f_equal.
    rewrite Pos2Z.inj_xI, Z.pow_add_r, Z.pow_mul_r by lia.
    change (2 ^ 2) with 4. change (2 ^ 1) with 2.
    replace (4 ^ Zpos p) with (2 ^ Zpos p * 2 ^ Zpos p); [lia|].
    rewrite <- Z.pow_add_r by lia. replace 4 with (2 ^ 2) by reflexivity.
    rewrite <- Z.pow_mul_r by lia. f_equal. lia.
  - assert (Hp : 0 < 2 ^ Zpos p) by (apply Z.pow_pos_nonneg; lia).
    assert (H2 : 0 <= shr_m (iter_pos shr_1 p mrs))
      by (rewrite IH by assumption; apply Z.div_pos; lia).
    rewrite IH, IH by assumption.
    rewrite !Z.div_div by lia. f_equal.
    rewrite Pos2Z.inj_xO. rewrite <- Z.pow_add_r by lia. f_equal. lia.
  - rewrite shr_1_m by assumption. reflexivity.
Qed.

Lemma shr_record_of_loc_m (m : Z) (l : location) :
  shr_m (shr_record_of_loc m l) = m.
Proof. destruct l as [|[]]; reflexivity. Qed.

(** What [shr_fexp] leaves of a non-negative mantissa of magnitude below
    [2 ^ K]: a non-negative mantissa, still of magnitude below [2 ^ K], at
    an exponent that is at most [K]. *)
Lemma shr_fexp_bounds (m e : Z) (l : location) (K : Z) :
  0 <= m -> Zdigits2 m + e <= K -> e <= K -> -1074 <= K ->
  let '(mrs, e') := shr_fexp 53 1024 m e l in
  0 <= shr_m mrs <= m
  /\ Zdigits2 (shr_m mrs) + e' <= K /\ e' <= K
  /\ (e' = e \/ e' = fexp 53 1024 (Zdigits2 m + e)).
Proof.
  intros Hm HK He Hmin. unfold shr_fexp, shr.
  pose proof (Zdigits2_nonneg m) as Hd.
  destruct (fexp 53 1024 (Zdigits2 m + e) - e) as [|n|n] eqn:En;
    rewrite ?shr_record_of_loc_m;
    [repeat split; solve [lia | auto] | | repeat split; solve [lia | auto]].
  rewrite iter_shr_1_m by (rewrite shr_record_of_loc_m; assumption).
  rewrite shr_record_of_loc_m.
  assert (Hp : 0 < 2 ^ Zpos n) by (apply Z.pow_pos_nonneg; lia).
  pose proof (Zdigits2_div_pow2 m (Zpos n) Hm ltac:(lia)) as Hq.
  assert (Hf : fexp 53 1024 (Zdigits2 m + e) = e + Zpos n) by lia.
  unfold fexp, emin in Hf.
  repeat split.
  - apply Z.div_pos; lia.
  - apply Z.div_le_upper_bound; [lia|]. nia.
  - lia.
  - lia.
  - right. unfold fexp, emin. lia.
Qed.

Lemma round_nearest_even_bounds (m : Z) (l : location) :
  m <= round_nearest_even m l <= m + 1.
Proof.
  destruct l as [|[]]; cbn; try lia. destruct (Z.even m); lia.
Qed.

(** Rounding a non-negative mantissa of magnitude below [2 ^ K], with [K]
    well inside the exponent range, yields a number, of magnitude below
    [2 ^ (K + 1)]. *)
Lemma binary_round_aux_finite (sx : bool) (mx ex : Z) (lx : location) (K : Z) :
  0 <= mx -> Zdigits2 mx + ex <= K -> ex <= K -> -1074 <= K <= 970 ->
  finite_below (K + 1) (binary_round_aux 53 1024 sx mx ex lx).
Proof.
  intros Hm HK He HKr. unfold binary_round_aux.
  pose proof (shr_fexp_bounds mx ex lx K Hm HK He ltac:(lia)) as H1.
  destruct (shr_fexp 53 1024 mx ex lx) as [mrs' e'].
  destruct H1 as [[Hm0 Hm1] [HK' [He' _]]].
  set (mr := round_nearest_even (shr_m mrs') (loc_of_shr_record mrs')).
  pose proof (round_nearest_even_bounds (shr_m mrs') (loc_of_shr_record mrs'))
    as Hr. fold mr in Hr.
  assert (Hdr : Zdigits2 mr <= Zdigits2 (shr_m mrs') + 1).
  { etransitivity; [apply (Zdigits2_mono mr (shr_m mrs' + 1)); lia|].
    apply Zdigits2_succ. assumption. }
  pose proof (shr_fexp_bounds mr e' loc_Exact (K + 1) ltac:(lia) ltac:(lia)
                ltac:(lia) ltac:(lia)) as H2.
  destruct (shr_fexp 53 1024 mr e' loc_Exact) as [mrs'' e''].
  destruct H2 as [[Hn0 Hn1] [HK'' [He'' Hcase]]].
  destruct (shr_m mrs'') as [|m|m] eqn:Em; cbn [finite_below]; try lia.
  assert (Hle : e'' <= 1024 - 53).
  { destruct Hcase as [->| ->]; [lia|]. unfold fexp, emin. lia. }
  apply Z.leb_le in Hle. rewrite Hle. cbn [finite_below Zdigits2] in *.
  exact HK''.
Qed.

Lemma iter_xO_value (m d : positive) :
  Zpos (Pos.iter xO m d) = Zpos m * 2 ^ Zpos d.
Proof.
  induction d as [|d IH] using Pos.peano_ind.
  - cbn [Pos.iter]. lia.
  - rewrite Pos.iter_succ, Pos2Z.inj_xO, IH, Pos2Z.inj_succ, Z.pow_succ_r by lia.
    lia.
Qed.

Lemma Zdigits2_shiftl (m s : Z) :
  0 < m -> 0 <= s -> Zdigits2 (m * 2 ^ s) = Zdigits2 m + s.
Proof.
  intros Hm Hs.
  assert (Hp : 0 < 2 ^ s) by (apply Z.pow_pos_nonneg; lia).
  rewrite !Zdigits2_log2 by nia.
  rewrite <- Z.shiftl_mul_pow2, Z.log2_shiftl by lia. lia.
Qed.

(** [float64(v)] is a number for every [v] a 64-bit integer type can hold. *)
Lemma float64_of_Z_finite (v : Z) :
  - 2 ^ 64 < v < 2 ^ 64 -> finite_below 65 (float64_of_Z v).
Proof.
  intros Hv. unfold float64_of_Z, binary_normalize.
  assert (Hpos : forall s p, Zpos p < 2 ^ 64 ->
             finite_below 65 (binary_round 53 1024 s p 0)).
  { intros s p Hp. unfold binary_round.
    assert (Hd : Zdigits2 (Zpos p) <= 64)
      by (apply Zdigits2_le; lia).
    cbn [Zdigits2] in Hd.
    assert (Hal : let '(mz, ez) :=
                    shl_align p 0 (fexp 53 1024 (Zpos (digits2_pos p) + 0)) in
                  Zdigits2 (Zpos mz) + ez = Zpos (digits2_pos p) /\ ez <= 0).
    { unfold shl_align.
      destruct (fexp 53 1024 (Zpos (digits2_pos p) + 0) - 0) as [|d|d] eqn:Ed;
        [cbn; lia | cbn; lia | ].
      change (PosDef.Pos.iter xO p d) with (Pos.iter xO p d).
      rewrite iter_xO_value, Zdigits2_shiftl by lia.
      cbn [Zdigits2]. lia. }
    destruct (shl_align p 0 (fexp 53 1024 (Zpos (digits2_pos p) + 0)))
      as [mz ez].
    destruct Hal as [Hs He].
    apply (binary_round_aux_finite s (Zpos mz) ez loc_Exact 64); lia. }
  destruct v as [|p|p]; [exact I| |]; apply Hpos; lia.
Qed.

(** A 64-bit number of microseconds divided by [1000.0] is a number. *)
Lemma div_1000_finite (x : spec_float) :
  finite_below 65 x -> finite_below 57 (float64_div x f1000).
Proof.
  change f1000 with (S754_finite false 8796093022208000 (-43)).
  destruct x as [s|s| |s m e]; cbn [finite_below]; try contradiction.
  - intros _. exact I.
  - intros Hx. unfold float64_div. cbn [SFdiv].
    unfold SFdiv_core_binary.
    cbn [Zdigits2]. change (Zpos (digits2_pos 8796093022208000)) with 53.
    set (d1 := Zpos (digits2_pos m)) in *.
    set (e' := Z.min (fexp 53 1024 (d1 + e - (53 + -43))) (e - -43)).
    set (sh := e - -43 - e').
    assert (Hd1 : 0 < d1) by (unfold d1; lia).
    assert (Hsh : 0 <= sh) by (unfold sh, e'; lia).
    assert (He' : e' <= Z.max (d1 + e - 63) (-1074))
      by (unfold e', fexp, emin; lia).
    set (m' := match sh with
               | 0 => Zpos m
               | Zpos _ => Z.shiftl (Zpos m) sh
               | Zneg _ => 0
               end).
    assert (Hm' : m' = Zpos m * 2 ^ sh).
    { unfold m'. destruct sh as [|p|p] eqn:Es; [cbn; lia| |lia].
      apply Z.shiftl_mul_pow2. lia. }
    pose proof (Z_div_mod m' 8796093022208000 ltac:(lia)) as Hdm.
    destruct (Z.div_eucl m' 8796093022208000) as [q r].
    destruct Hdm as [Hq Hr].
    assert (Hp : 0 < 2 ^ sh) by (apply Z.pow_pos_nonneg; lia).
    assert (Hq0 : 0 <= q) by nia.
    assert (Hmd : m' < 2 ^ (d1 + sh)).
    { rewrite Hm', Z.pow_add_r by lia.
      pose proof (Zdigits2_gt (Zpos m) ltac:(lia)) as Hg.
      cbn [Zdigits2] in Hg. fold d1 in Hg. nia. }
    assert (Hqd : Zdigits2 q + e' <= 56).
    { destruct (Z.le_gt_cases (d1 + sh) 52) as [Hsmall|Hbig].
      - assert (m' < 2 ^ 52).
        { eapply Z.lt_le_trans; [exact Hmd|].
          apply Z.pow_le_mono_r; lia. }
        assert (q = 0) by (change (2 ^ 52) with 4503599627370496 in *; nia).
        subst q. cbn [Zdigits2]. lia.
      - assert (Zdigits2 q <= d1 + sh - 52); [|unfold sh in *; lia].
        apply Zdigits2_le; [assumption|lia|].
        assert (Hsplit : 2 ^ (d1 + sh) = 2 ^ (d1 + sh - 52) * 2 ^ 52).
        { rewrite <- Z.pow_add_r by lia. f_equal. lia. }
        rewrite Hsplit in Hmd.
        change (2 ^ 52) with 4503599627370496 in *.
        assert (0 < 2 ^ (d1 + sh - 52)) by (apply Z.pow_pos_nonneg; lia).
        nia. }
    apply (binary_round_aux_finite (xorb s false) q e' _ 56); lia.
Qed.

(** ** The shape of what [%d] and [%.2f] print *)

Lemma string_of_uint_digits (d : Decimal.uint) :
  all_digits (NilEmpty.string_of_uint d) = true.
Proof. induction d; cbn; auto. Qed.

Lemma fmt_d_digits (z : Z) :
  0 <= z -> all_digits (fmt_d z) = true /\ fmt_d z <> "".
Proof.
  intros Hz. unfold fmt_d. destruct z as [|p|p]; [split; [reflexivity|discriminate]| |lia].
  cbn [Z.to_int NilZero.string_of_int]. unfold NilZero.string_of_uint.
  destruct (Pos.to_uint p) eqn:E;
    try (split; [apply (string_of_uint_digits (_ _)) | discriminate]).
  split; [reflexivity|discriminate].
Qed.

Lemma digit_is_digit (d : Z) : 0 <= d < 10 -> is_digit (digit d) = true.
Proof.
  intros H.
  assert (E : d = 0 \/ d = 1 \/ d = 2 \/ d = 3 \/ d = 4 \/ d = 5 \/ d = 6
              \/ d = 7 \/ d = 8 \/ d = 9) by lia.
  repeat destruct E as [->|E]; try subst d; reflexivity.
Qed.

Lemma round_half_even_nonneg (num den : Z) :
  0 <= num -> 0 < den -> 0 <= round_half_even num den.
Proof.
  intros Hn Hd. unfold round_half_even.
  pose proof (Z.div_pos num den Hn Hd).
  destruct (2 * (num mod den) ?= den); [destruct (Z.even _)| |]; lia.
Qed.

Lemma hundredths_nonneg (m : positive) (e : Z) : 0 <= hundredths m e.
Proof.
  unfold hundredths. destruct (Z.leb_spec 0 e).
  - assert (0 < 2 ^ e) by (apply Z.pow_pos_nonneg; lia). nia.
  - apply round_half_even_nonneg; [lia|]. apply Z.pow_pos_nonneg; lia.
Qed.

Lemma fixed2_shape (sign : string) (n : Z) :
  sign = "" \/ sign = "-" -> 0 <= n -> two_decimals (sign ++ fixed2 n).
Proof.
  intros Hs Hn. unfold fixed2.
  destruct (fmt_d_digits (n / 100)) as [Hd Hne];
    [apply Z.div_pos; lia|].
  exists sign, (fmt_d (n / 100)), (digit ((n / 10) mod 10)), (digit (n mod 10)).
  repeat split; try assumption;
    apply digit_is_digit; apply Z.mod_pos_bound; lia.
Qed.

(** [%.2f] of a number is a decimal with exactly two places. *)
Lemma fmt_f2_shape (K : Z) (x : spec_float) :
  finite_below K x -> two_decimals (fmt_f2 x).
Proof.
  destruct x as [s|s| |s m e]; cbn [finite_below fmt_f2]; try contradiction.
  - intros _. exists (if s then "-" else ""), "0", "0"%char, "0"%char.
    repeat split; try reflexivity; try discriminate.
    destruct s; auto.
  - intros _. apply fixed2_shape; [destruct s; auto|apply hundredths_nonneg].
Qed.

Lemma fmt_ms_shape (us : Z) :
  - 2 ^ 64 < us < 2 ^ 64 -> two_decimals (fmt_ms us).
Proof.
  intros H. unfold fmt_ms.
  apply (fmt_f2_shape 57), div_1000_finite, float64_of_Z_finite, H.
Qed.

(** ** The range of a decoded integer *)

Lemma Uint16_range o b : 0 <= Uint16 o b < 2 ^ 16.
Proof.
  replace (Uint16 o b) with (Uint16 o [idx b 0; idx b 1])
    by (destruct o; reflexivity).
  rewrite Uint16_value.
  pose proof (u8_range (idx b 0)); pose proof (u8_range (idx b 1)).
  destruct o; cbn [order_value be_value rev app le_value]; lia.
Qed.

Lemma Uint32_range o b : 0 <= Uint32 o b < 2 ^ 32.
Proof.
  replace (Uint32 o b) with (Uint32 o [idx b 0; idx b 1; idx b 2; idx b 3])
    by (destruct o; reflexivity).
  rewrite Uint32_value.
  pose proof (u8_range (idx b 0)); pose proof (u8_range (idx b 1));
  pose proof (u8_range (idx b 2)); pose proof (u8_range (idx b 3)).
  destruct o; cbn [order_value be_value rev app le_value]; lia.
Qed.

Lemma Uint64_range o b : 0 <= Uint64 o b < 2 ^ 64.
Proof.
  replace (Uint64 o b)
    with (Uint64 o [idx b 0; idx b 1; idx b 2; idx b 3;
                    idx b 4; idx b 5; idx b 6; idx b 7])
    by (destruct o; reflexivity).
  rewrite Uint64_value.
  pose proof (u8_range (idx b 0)); pose proof (u8_range (idx b 1));
  pose proof (u8_range (idx b 2)); pose proof (u8_range (idx b 3));
  pose proof (u8_range (idx b 4)); pose proof (u8_range (idx b 5));
  pose proof (u8_range (idx b 6)); pose proof (u8_range (idx b 7)).
  destruct o; cbn [order_value be_value rev app le_value]; lia.
Qed.

Lemma decode_int_range o k b : - 2 ^ 63 <= decode_int o k b < 2 ^ 64.
Proof.
  pose proof (u8_range (idx b 0)).
  pose proof (Uint16_range o b). pose proof (Uint32_range o b).
  pose proof (Uint64_range o b).
  destruct k; cbn [decode_int]; unfold to_signed;
    cbn [Z.of_nat Pos.of_succ_nat Pos.succ Z.mul Pos.mul Z.sub Z.add Z.opp
         Z.pos_sub Pos.pred_double];
    try match goal with |- context [?a <? ?c] => destruct (Z.ltb_spec a c) end;
    lia.
Qed.

Lemma get_int_range o f buf : - 2 ^ 64 < get_int o f buf < 2 ^ 64.
Proof.
  unfold get_int.
  pose proof (decode_int_range o (int_kind f)
                (slice buf (int_off f) (kind_size (int_kind f)))).
  lia.
Qed.

(** ** float64: how close the printed quotient is *)

Lemma Zdigits2_eq (m k : Z) :
  0 < k -> 2 ^ (k - 1) <= m < 2 ^ k -> Zdigits2 m = k.
Proof.
  intros Hk [Hlo Hhi].
  assert (0 < 2 ^ (k - 1)) by (apply Z.pow_pos_nonneg; lia).
  rewrite Zdigits2_log2 by lia.
  apply Z.log2_lt_pow2 in Hhi; [|lia].
  apply Z.log2_le_pow2 in Hlo; lia.
Qed.

(** [shr_fexp] on a non-negative mantissa: the low bits that do not fit the
    format are dropped, and the exponent is raised by as much. *)
Lemma shr_fexp_exact (m e : Z) (l : location) :
  0 <= m ->
  let n := Z.max (fexp 53 1024 (Zdigits2 m + e) - e) 0 in
  let '(mrs, e') := shr_fexp 53 1024 m e l in
  shr_m mrs = m / 2 ^ n /\ e' = e + n.
Proof.
  intros Hm. unfold shr_fexp, shr.
  destruct (fexp 53 1024 (Zdigits2 m + e) - e) as [|p|p] eqn:En;
    cbn [Z.max Z.compare]; rewrite ?shr_record_of_loc_m;
    [rewrite Z.div_1_r; lia | | rewrite Z.div_1_r; lia].
  rewrite iter_shr_1_m by (rewrite shr_record_of_loc_m; assumption).
  rewrite shr_record_of_loc_m. split; reflexivity.
Qed.

(** Rounding a mantissa of at least 53 digits: the result is a finite
    float; it is the mantissa cut to 53 digits, or the next integer, at the
    exponent raised by the number of digits cut. *)
Lemma binary_round_aux_near (sx : bool) (mx ex : Z) (lx : location) :
  53 <= Zdigits2 mx -> 0 < mx -> -1074 <= ex -> Zdigits2 mx + ex <= 1000 ->
  exists m'' e'' mr,
    binary_round_aux 53 1024 sx mx ex lx = S754_finite sx m'' e''
    /\ mx / 2 ^ (Zdigits2 mx - 53) <= mr <= mx / 2 ^ (Zdigits2 mx - 53) + 1
    /\ ex + (Zdigits2 mx - 53) <= e'' <= ex + (Zdigits2 mx - 53) + 1
    /\ mr = Zpos m'' * 2 ^ (e'' - (ex + (Zdigits2 mx - 53))).
Proof.
  intros Hd Hm Hex HK. unfold binary_round_aux.
  set (d := Zdigits2 mx) in *.
  pose proof (shr_fexp_exact mx ex lx ltac:(lia)) as H1. fold d in H1.
  replace (Z.max (fexp 53 1024 (d + ex) - ex) 0) with (d - 53) in H1
    by (unfold fexp, emin; lia).
  destruct (shr_fexp 53 1024 mx ex lx) as [mrs' e1].
  cbv zeta in H1. destruct H1 as [Hm' He1].
  set (mr := round_nearest_even (shr_m mrs') (loc_of_shr_record mrs')).
  pose proof (round_nearest_even_bounds (shr_m mrs') (loc_of_shr_record mrs'))
    as Hr. fold mr in Hr. rewrite Hm' in Hr.
  (* the cut mantissa has exactly 53 digits *)
  assert (Hcut : 2 ^ 52 <= mx / 2 ^ (d - 53) < 2 ^ 53).
  { pose proof (Zdigits2_gt mx ltac:(lia)) as Hhi.
    pose proof (Zdigits2_le_pow mx Hm) as Hlo. fold d in Hhi, Hlo.
    assert (Hp : 0 < 2 ^ (d - 53)) by (apply Z.pow_pos_nonneg; lia).
    replace (2 ^ d) with (2 ^ 53 * 2 ^ (d - 53)) in Hhi
      by (rewrite <- Z.pow_add_r by lia; f_equal; lia).
    replace (2 ^ (d - 1)) with (2 ^ 52 * 2 ^ (d - 53)) in Hlo
      by (rewrite <- Z.pow_add_r by lia; f_equal; lia).
    split.
    - apply Z.div_le_lower_bound; lia.
    - apply Z.div_lt_upper_bound; lia. }
  pose proof (shr_fexp_exact mr e1 loc_Exact ltac:(lia)) as H2.
  destruct (Z.eq_dec mr (2 ^ 53)) as [Etop|Ntop].
  - (* the mantissa was rounded up to 2^53: one more digit is cut *)
    assert (Hdr : Zdigits2 mr = 54) by (rewrite Etop; reflexivity).
    rewrite Hdr in H2.
    replace (Z.max (fexp 53 1024 (54 + e1) - e1) 0) with 1 in H2
      by (unfold fexp, emin; lia).
    destruct (shr_fexp 53 1024 mr e1 loc_Exact) as [mrs'' e''].
    cbv zeta in H2. destruct H2 as [Hm'' He''].
    rewrite Hm'', Etop. change (2 ^ 53 / 2 ^ 1) with (Zpos 4503599627370496).
    cbv iota.
    assert (Hle : e'' <= 1024 - 53) by lia.
    apply Z.leb_le in Hle. rewrite Hle.
    exists 4503599627370496%positive, e'', mr.
    repeat split; try lia.
    replace (e'' - (ex + (d - 53))) with 1 by lia. rewrite Etop. reflexivity.
  - assert (Hdr : Zdigits2 mr = 53)
      by (apply Zdigits2_eq; [lia|]; change (53 - 1) with 52; lia).
    rewrite Hdr in H2.
    replace (Z.max (fexp 53 1024 (53 + e1) - e1) 0) with 0 in H2
      by (unfold fexp, emin; lia).
    destruct (shr_fexp 53 1024 mr e1 loc_Exact) as [mrs'' e''].
    cbv zeta in H2. destruct H2 as [Hm'' He''].
    rewrite Z.div_1_r in Hm''. rewrite Hm''.
    destruct mr as [|pr|pr] eqn:Emr; try lia.
    assert (Hle : e'' <= 1024 - 53) by lia.
    apply Z.leb_le in Hle. rewrite Hle.
    exists pr, e'', (Zpos pr).
    repeat split; try lia.
    replace (e'' - (ex + (d - 53))) with 0 by lia. lia.
Qed.

(** [float64(v)] is [v] itself when [v] has at most 53 binary digits: the
    mantissa is [v] shifted up to 53 digits. *)
Lemma float64_of_Z_exact (v : Z) :
  0 < v < 2 ^ 53 ->
  exists m,
    float64_of_Z v = S754_finite false m (Zdigits2 v - 53)
    /\ Zpos m = v * 2 ^ (53 - Zdigits2 v)
    /\ Zdigits2 (Zpos m) = 53.
Proof.
  intros Hv. destruct v as [|p|p]; try lia.
  unfold float64_of_Z, binary_normalize, binary_round.
  assert (Hd : 0 < Zdigits2 (Zpos p) <= 53).
  { split; [cbn; lia|]. apply Zdigits2_le; lia. }
  set (d := Zdigits2 (Zpos p)) in *.
  assert (Hal : exists mz,
             shl_align p 0 (fexp 53 1024 (Zpos (digits2_pos p) + 0))
             = (mz, d - 53)
             /\ Zpos mz = Zpos p * 2 ^ (53 - d)).
  { unfold shl_align. change (Zpos (digits2_pos p)) with d.
    replace (fexp 53 1024 (d + 0)) with (d - 53) by (unfold fexp, emin; lia).
    destruct (d - 53 - 0) as [|n|n] eqn:En; try lia.
    - exists p. replace (d - 53) with 0 by lia.
      replace (53 - d) with 0 by lia. split; [reflexivity|lia].
    - exists (Pos.iter xO p n). split; [reflexivity|].
      rewrite iter_xO_value. do 2 f_equal. lia. }
  destruct Hal as [mz [-> Hmz]].
  assert (Hdz : Zdigits2 (Zpos mz) = 53).
  { rewrite Hmz, Zdigits2_shiftl by lia. fold d. lia. }
  exists mz. split; [|split; assumption].
  assert (Hn : fexp 53 1024 (Zdigits2 (Zpos mz) + (d - 53)) - (d - 53) = 0)
    by (rewrite Hdz; unfold fexp, emin; lia).
  unfold binary_round_aux, shr_fexp.
  cbn [shr_record_of_loc]. rewrite Hn. cbn [shr shr_m loc_of_shr_record
                                            round_nearest_even].
  rewrite Hn. cbn [shr shr_m].
  assert (Hle : d - 53 <= 1024 - 53) by lia.
  apply Z.leb_le in Hle. rewrite Hle. reflexivity.
Qed.

Lemma round_half_even_near (num den : Z) :
  0 < den ->
  - den <= 2 * round_half_even num den * den - 2 * num <= den.
Proof.
  intros Hd. unfold round_half_even.
  pose proof (Z.div_mod num den ltac:(lia)) as E.
  pose proof (Z.mod_pos_bound num den Hd) as Hr.
  destruct (Z.compare_spec (2 * (num mod den)) den);
    [destruct (Z.even (num / den))| |]; nia.
Qed.

(** The text [%.2f] prints for [float64(v)/1000.0] is the two-place decimal
    of a number of hundredths that is within half a hundredth of
    [v / 1000]. *)
Lemma fmt_ms_accurate (v : Z) :
  0 <= v < 2 ^ 52 ->
  exists n, fmt_ms v = fixed2 n /\ 0 <= n /\ -5 <= 10 * n - v <= 5.
Proof.
  intros Hv. destruct (Z.eq_dec v 0) as [->|Hne].
  { exists 0. split; [reflexivity|lia]. }
  destruct (float64_of_Z_exact v ltac:(lia)) as [mx [Hf [Hmx Hdx]]].
  unfold fmt_ms. rewrite Hf.
  change f1000 with (S754_finite false 8796093022208000 (-43)).
  unfold float64_div. cbn [SFdiv xorb]. unfold SFdiv_core_binary.
  rewrite Hdx. change (Zdigits2 (Zpos 8796093022208000)) with 53.
  assert (Hdv : 0 < Zdigits2 v <= 52).
  { split; [destruct v; cbn; lia|apply Zdigits2_le; lia]. }
  set (ex := Zdigits2 v - 53) in *.
  replace (Z.min (fexp 53 1024 (53 + ex - (53 + -43))) (ex - -43))
    with (ex - 10) by (unfold fexp, emin; lia).
  replace (ex - -43 - (ex - 10)) with 53 by lia.
  cbv iota.
  rewrite Z.shiftl_mul_pow2 by lia.
  pose proof (Z_div_mod (Zpos mx * 2 ^ 53) 8796093022208000 ltac:(lia)) as Hdm.
  destruct (Z.div_eucl (Zpos mx * 2 ^ 53) 8796093022208000) as [q r].
  destruct Hdm as [Hq Hr].
  change (2 ^ 53) with 9007199254740992 in Hq.
  (* the mantissa of float64(v) has 53 digits *)
  pose proof (Zdigits2_gt (Zpos mx) ltac:(lia)) as Hhi.
  pose proof (Zdigits2_le_pow (Zpos mx) ltac:(lia)) as Hlo.
  rewrite Hdx in Hhi, Hlo.
  change (2 ^ 53) with 9007199254740992 in Hhi.
  change (2 ^ (53 - 1)) with 4503599627370496 in Hlo.
  (* q is 1024 * mx / 1000, rounded down *)
  assert (Hq1 : 1000 * q <= 1024 * Zpos mx < 1000 * q + 1000) by lia.
  assert (Hqr : 2 ^ 52 <= q < 2 ^ 54)
    by (change (2 ^ 52) with 4503599627370496;
        change (2 ^ 54) with 18014398509481984; lia).
  assert (Hdq : Zdigits2 q = 53 \/ Zdigits2 q = 54).
  { destruct (Z.lt_ge_cases q (2 ^ 53)).
    - left. apply Zdigits2_eq; [lia|]. change (53 - 1) with 52. lia.
    - right. apply Zdigits2_eq; [lia|]. change (54 - 1) with 53. lia. }
  destruct (binary_round_aux_near false q (ex - 10)
              (new_location 8796093022208000 r))
    as [m'' [e'' [mr [-> [Hmr [He'' Hmr2]]]]]]; try lia.
  cbn [fmt_f2 append]. exists (hundredths m'' e'').
  split; [reflexivity|]. split; [apply hundredths_nonneg|].
  set (n1 := Zdigits2 q - 53) in *.
  set (e1 := ex - 10 + n1) in *.
  unfold hundredths. destruct (Z.leb_spec 0 e''); [lia|].
  assert (HP'' : 0 < 2 ^ (- e'')) by (apply Z.pow_pos_nonneg; lia).
  pose proof (round_half_even_near (100 * Zpos m'') (2 ^ (- e'')) HP'') as Hn.
  set (n := round_half_even (100 * Zpos m'') (2 ^ (- e''))) in *.
  (* v at the scale of the first rounding *)
  assert (HvP : v * 2 ^ (- e1) = Zpos mx * 2 ^ (10 - n1)).
  { rewrite Hmx. rewrite <- Z.mul_assoc, <- Z.pow_add_r by lia.
    do 2 f_equal. unfold e1, ex. lia. }
  assert (HP : 2 ^ (- e1) = 2 ^ (- e'') * 2 ^ (e'' - e1))
    by (rewrite <- Z.pow_add_r by lia; f_equal; lia).
  assert (HP10 : 1024 <= 2 ^ (- e1)).
  { change 1024 with (2 ^ 10). apply Z.pow_le_mono_r; unfold e1, ex, n1; lia. }
  assert (Hnear : - 1000 <= 1000 * mr - v * 2 ^ (- e1) <= 1000).
  { rewrite HvP. destruct Hdq as [E|E]; unfold n1 in *; rewrite E in *.
    - change (2 ^ (53 - 53)) with 1 in Hmr. rewrite Z.div_1_r in Hmr.
      change (2 ^ (10 - (53 - 53))) with 1024. lia.
    - change (2 ^ (54 - 53)) with 2 in Hmr.
      change (2 ^ (10 - (54 - 53))) with 512.
      pose proof (Z.div_mod q 2 ltac:(lia)) as Eq2.
      pose proof (Z.mod_pos_bound q 2 ltac:(lia)). lia. }
  assert (Hscale : - 2 ^ (- e1) <= 2 * n * 2 ^ (- e1) - 200 * mr
                   <= 2 ^ (- e1)).
  { rewrite HP, Hmr2. fold e1.
    assert (0 < 2 ^ (e'' - e1)) by (apply Z.pow_pos_nonneg; lia). nia. }
  nia.
Qed.

(** ** Durations in the event lines *)

Lemma latency_line_emitted (Llat : bpfLatdata.layout) event rd event' out line :
  readLoopTcpLatency_body Llat event rd = Continue event' out ->
  In (EventLine line) out ->
  line = latency_line event'
  /\ - 2 ^ 64 < bpfLatdata.DeltaUs event' < 2 ^ 64.
Proof.
  unfold readLoopTcpLatency_body. intros Hb Hin.
  destruct rd as [record|err].
  - destruct (negb _).
    + injection Hb as <- <-. destruct Hin as [E|[]]. discriminate.
    + destruct (binary_Read _ _ _) as [err|ev] eqn:Hd.
      * injection Hb as <- <-. destruct Hin as [E|[]]. discriminate.
      * apply binary_Read_inv in Hd as [_ ->].
        destruct (comm_is_sipp _); injection Hb as <- <-;
          [|destruct Hin].
        destruct Hin as [E|[]]. injection E as <-.
        split; [reflexivity|apply get_int_range].
  - destruct (errors_Is_ErrClosed err); [discriminate|].
    injection Hb as <- <-. destruct Hin as [E|[]]. discriminate.
Qed.

Lemma tcpclose_line_emitted o (Ltcp : bpfTcpevent.layout)
    event rd event' out line :
  readLoopTcpClose_body o Ltcp event rd = Continue event' out ->
  In (EventLine line) out ->
  line = tcpclose_line o event'
  /\ - 2 ^ 64 < bpfTcpevent.Srtt event' < 2 ^ 64.
Proof.
  unfold readLoopTcpClose_body. intros Hb Hin.
  destruct rd as [record|err].
  - destruct (binary_Read _ _ _) as [err|ev] eqn:Hd.
    + injection Hb as <- <-. destruct Hin as [E|[]]. discriminate.
    + apply binary_Read_inv in Hd as [_ ->].
      destruct (comm_is_sipp _); injection Hb as <- <-;
        [|destruct Hin].
      destruct Hin as [E|[]]. injection E as <-.
      split; [reflexivity|apply get_int_range].
  - destruct (errors_Is_ErrClosed err); [discriminate|].
    injection Hb as <- <-. destruct Hin as [E|[]]. discriminate.
Qed.

(** C3.  In every latency line and every connection-close line the duration
    is the text [%.2f] prints for [float64(us)/1000.0], [us] being the
    decoded number of microseconds: a decimal with exactly two places; and,
    for durations below 2^52 microseconds, the two-place decimal of a number
    of hundredths of a millisecond that lies within half a hundredth of
    [us / 1000].  2500 is printed as 2.50 and 1500 as 1.50. *)
Theorem duration_printed_in_ms
    (NativeEndian : ByteOrder) (Llat : bpfLatdata.layout)
    (Ltcp : bpfTcpevent.layout) :
  (forall event rd event' out line,
      readLoopTcpLatency_body Llat event rd = Continue event' out ->
      In (EventLine line) out ->
      line = log_Output
               ("Latency: " ++ fmt_ms (bpfLatdata.DeltaUs event') ++ TAB
                ++ "comm: " ++ ByteSliceToString (bpfLatdata.Comm event'))
      /\ two_decimals (fmt_ms (bpfLatdata.DeltaUs event'))
      /\ (0 <= bpfLatdata.DeltaUs event' < 2 ^ 52 ->
          exists n, fmt_ms (bpfLatdata.DeltaUs event') = fixed2 n
                    /\ 0 <= n
                    /\ -5 <= 10 * n - bpfLatdata.DeltaUs event' <= 5))
  /\ (forall tcpevent rd tcpevent' out line,
      readLoopTcpClose_body NativeEndian Ltcp tcpevent rd
      = Continue tcpevent' out ->
      In (EventLine line) out ->
      line = log_Output
               (pad_right 15
                  (IP_String (intToIP NativeEndian
                                (bpfTcpevent.Saddr tcpevent')))
                ++ " " ++ pad_right 6 (fmt_d (bpfTcpevent.Sport tcpevent'))
                ++ " -> "
                ++ pad_right 15
                     (IP_String (intToIP NativeEndian
                                   (bpfTcpevent.Daddr tcpevent')))
                ++ " " ++ pad_right 6 (fmt_d (bpfTcpevent.Dport tcpevent'))
                ++ " " ++ fmt_ms (bpfTcpevent.Srtt tcpevent') ++ " "
                ++ pad_right 6
                     (ByteSliceToString (bpfTcpevent.Comm tcpevent')))
      /\ two_decimals (fmt_ms (bpfTcpevent.Srtt tcpevent'))
      /\ (0 <= bpfTcpevent.Srtt tcpevent' < 2 ^ 52 ->
          exists n, fmt_ms (bpfTcpevent.Srtt tcpevent') = fixed2 n
                    /\ 0 <= n
                    /\ -5 <= 10 * n - bpfTcpevent.Srtt tcpevent' <= 5))
  /\ fmt_ms 2500 = "2.50"
  /\ fmt_ms 1500 = "1.50".
Proof.
  split; [|split; [|split; reflexivity]].
  - intros event rd event' out line Hb Hin.
    destruct (latency_line_emitted _ _ _ _ _ _ Hb Hin) as [-> Hr].
    split; [reflexivity|]. split; [apply fmt_ms_shape, Hr|].
    apply fmt_ms_accurate.
  - intros event rd event' out line Hb Hin.
    destruct (tcpclose_line_emitted _ _ _ _ _ _ _ Hb Hin) as [-> Hr].
    split; [reflexivity|]. split; [apply fmt_ms_shape, Hr|].
    apply fmt_ms_accurate.
Qed.

(** The two scenarios: a connection-close record with a smoothed round-trip
    time of 2500 and a latency record of 1500 microseconds, both of the
    process "sipp". *)
Lemma duration_printed_in_ms_witness :
  readLoopTcpClose_body LittleEndian tcpevent_layout
    (bpfTcpevent.zero tcpevent_layout)
    (ReadOk {| ringbuf.RawSample := tcpclose_raw "sipp" |})
  = Continue
      (bpfTcpevent.value tcpevent_layout LittleEndian (tcpclose_raw "sipp"))
      [EventLine
         ("10.0.0.1        5000   -> 10.0.0.2        5060   2.50 sipp  "
          ++ NL)]
  /\ readLoopTcpLatency_body latdata_layout (bpfLatdata.zero latdata_layout)
       (ReadOk {| perf.RawSample := latency_raw "sipp";
                  perf.LostSamples := 0 |})
     = Continue
         (bpfLatdata.value latdata_layout LittleEndian (latency_raw "sipp"))
         [EventLine ("Latency: 1.50" ++ TAB ++ "comm: sipp" ++ NL)]
  /\ two_decimals
       (fmt_ms (bpfTcpevent.Srtt
                  (bpfTcpevent.value tcpevent_layout LittleEndian
                     (tcpclose_raw "sipp"))))
  /\ exists n, fmt_ms 1500 = fixed2 n /\ 0 <= n /\ -5 <= 10 * n - 1500 <= 5.
Proof.
  assert (Htcp : readLoopTcpClose_body LittleEndian tcpevent_layout
                   (bpfTcpevent.zero tcpevent_layout)
                   (ReadOk {| ringbuf.RawSample := tcpclose_raw "sipp" |})
                 = Continue
                     (bpfTcpevent.value tcpevent_layout LittleEndian
                        (tcpclose_raw "sipp"))
                     [EventLine
                        ("10.0.0.1        5000   -> 10.0.0.2        5060   2.50 sipp  "
                         ++ NL)])
    by reflexivity.
  assert (Hlat : readLoopTcpLatency_body latdata_layout
                   (bpfLatdata.zero latdata_layout)
                   (ReadOk {| perf.RawSample := latency_raw "sipp";
                              perf.LostSamples := 0 |})
                 = Continue
                     (bpfLatdata.value latdata_layout LittleEndian
                        (latency_raw "sipp"))
                     [EventLine
                        ("Latency: 1.50" ++ TAB ++ "comm: sipp" ++ NL)])
    by reflexivity.
  pose proof (duration_printed_in_ms LittleEndian latdata_layout
                tcpevent_layout) as [Hl [Ht _]].
  split; [exact Htcp|]. split; [exact Hlat|]. split.
  - exact (proj1 (proj2 (Ht _ _ _ _ _ Htcp (or_introl eq_refl)))).
  - apply (proj2 (proj2 (Hl _ _ _ _ _ Hlat (or_introl eq_refl)))).
    vm_compute. split; [discriminate|reflexivity].
Defined.

(** * Further properties of the loops *)

(** ** Records longer than the structure *)

(** X1.  [binary.Read] consumes exactly the bytes of the structure: a record
    that is longer is decoded from its first bytes and what follows them is
    ignored, so a turn of a loop on the record is the turn on the record cut
    to the size of the structure. *)
Theorem trailing_bytes_are_ignored
    (NativeEndian : ByteOrder) (Llat : bpfLatdata.layout)
    (Lev : bpfEvent.layout) (Ltcp : bpfTcpevent.layout)
    (raw : list byte) :
  ((bpfLatdata.size Llat <= List.length raw)%nat ->
   forall event lost,
     readLoopTcpLatency_body Llat event
       (ReadOk {| perf.RawSample := raw; perf.LostSamples := lost |})
     = readLoopTcpLatency_body Llat event
         (ReadOk {| perf.RawSample := firstn (bpfLatdata.size Llat) raw;
                    perf.LostSamples := lost |}))
  /\ ((bpfEvent.size Lev <= List.length raw)%nat ->
      forall event,
        readLoopSipMessages_body Lev event
          (ReadOk {| ringbuf.RawSample := raw |})
        = readLoopSipMessages_body Lev event
            (ReadOk {| ringbuf.RawSample := firstn (bpfEvent.size Lev) raw |}))
  /\ ((bpfTcpevent.size Ltcp <= List.length raw)%nat ->
      forall tcpevent,
        readLoopTcpClose_body NativeEndian Ltcp tcpevent
          (ReadOk {| ringbuf.RawSample := raw |})
        = readLoopTcpClose_body NativeEndian Ltcp tcpevent
            (ReadOk {| ringbuf.RawSample :=
                         firstn (bpfTcpevent.size Ltcp) raw |})).
Proof.
  assert (Hcut : forall T size (value : list byte -> T),
             (size <= List.length raw)%nat ->
             binary_Read raw size value
             = binary_Read (firstn size raw) size value).
  { intros T size value H.
    rewrite !binary_Read_ok;
      [|rewrite firstn_length_le by assumption; lia|assumption].
    rewrite firstn_firstn, Nat.min_id. reflexivity. }
  split; [|split]; intros Hs; intros.
  - unfold readLoopTcpLatency_body. cbn [perf.RawSample perf.LostSamples].
    rewrite <- Hcut by assumption. reflexivity.
  - unfold readLoopSipMessages_body. cbn [ringbuf.RawSample].
    rewrite <- Hcut by assumption. reflexivity.
  - unfold readLoopTcpClose_body. cbn [ringbuf.RawSample].
    rewrite <- Hcut by assumption. reflexivity.
Qed.

Lemma trailing_bytes_are_ignored_witness :
  (bpfLatdata.size latdata_layout
   <= List.length (latency_raw "sipp" ++ [xff; xfe; xfd]))%nat
  /\ readLoopTcpLatency_body latdata_layout (bpfLatdata.zero latdata_layout)
       (ReadOk {| perf.RawSample := (latency_raw "sipp" ++ [xff; xfe; xfd])%list;
                  perf.LostSamples := 0 |})
     = readLoopTcpLatency_body latdata_layout (bpfLatdata.zero latdata_layout)
         (ReadOk {| perf.RawSample := latency_raw "sipp";
                    perf.LostSamples := 0 |}).
Proof.
  split; [vm_compute; lia|].
  apply (proj1 (trailing_bytes_are_ignored LittleEndian latdata_layout
                  event_layout tcpevent_layout
                  (latency_raw "sipp" ++ [xff; xfe; xfd]))).
  vm_compute; lia.
Defined.

(** ** Runs of a loop *)

Section RunLoopFacts.
Context {S R : Type}.
Variable body : S -> ReadResult R -> Step S.

(** A turn depends on the loop variable only by handing it on: two turns on
    the same read result from different variables leave the loop together
    with the same log, or both go on with the same log, either with the same
    new variable or each with its own old one. *)
Hypothesis body_forgets :
  forall s1 s2 rd,
    (exists out, body s1 rd = Return out /\ body s2 rd = Return out)
    \/ (exists s' out,
          body s1 rd = Continue s' out /\ body s2 rd = Continue s' out)
    \/ (exists out,
          body s1 rd = Continue s1 out /\ body s2 rd = Continue s2 out).

Lemma run_loop_forgets (reads : list (ReadResult R)) (s1 s2 : S) :
  fst (run_loop body s1 reads) = fst (run_loop body s2 reads)
  /\ (snd (run_loop body s1 reads) = None
      <-> snd (run_loop body s2 reads) = None).
Proof.
  revert s1 s2. induction reads as [|rd rest IH]; intros s1 s2; cbn.
  - split; [reflexivity|]. split; discriminate.
  - destruct (body_forgets s1 s2 rd)
      as [[out [-> ->]]|[[s' [out [-> ->]]]|[out [-> ->]]]].
    + cbn. tauto.
    + tauto.
    + specialize (IH s1 s2).
      destruct (run_loop body s1 rest) as [o1 f1].
      destruct (run_loop body s2 rest) as [o2 f2].
      cbn in *. destruct IH as [-> Hf]. tauto.
Qed.

Hypothesis body_closed :
  forall s rd, is_closed rd = true -> exists out, body s rd = Return out.
Hypothesis body_open :
  forall s rd, is_closed rd = false ->
               exists s' out, body s rd = Continue s' out.

(** Reads after the one that closed the loop are never looked at. *)
Lemma run_loop_app_closed (r1 r2 : list (ReadResult R)) (s : S) :
  existsb is_closed r1 = true ->
  run_loop body s (r1 ++ r2) = run_loop body s r1.
Proof.
  revert s. induction r1 as [|rd rest IH]; intros s H; [discriminate|].
  cbn in H |- *. destruct (is_closed rd) eqn:E.
  - destruct (body_closed s rd E) as [out ->]. reflexivity.
  - destruct (body_open s rd E) as [s' [out ->]].
    rewrite (IH s' H). reflexivity.
Qed.

(** As long as no read has closed it, the loop goes on with the next
    reads, whatever its variable holds by then. *)
Lemma run_loop_app_open (r1 r2 : list (ReadResult R)) (s : S) :
  existsb is_closed r1 = false ->
  fst (run_loop body s (r1 ++ r2))
  = (fst (run_loop body s r1) ++ fst (run_loop body s r2))%list
  /\ (snd (run_loop body s (r1 ++ r2)) = None
      <-> snd (run_loop body s r2) = None).
Proof.
  revert s. induction r1 as [|rd rest IH]; intros s H.
  - cbn. tauto.
  - cbn in H |- *. apply orb_false_iff in H as [E H].
    destruct (body_open s rd E) as [s' [out Hb]]. rewrite Hb.
    destruct (IH s' H) as [IH1 IH2].
    destruct (run_loop_forgets r2 s' s) as [F1 F2].
    destruct (run_loop body s' (rest ++ r2)) as [o12 f12].
    destruct (run_loop body s' rest) as [o1 f1].
    cbn in *. rewrite IH1, F1, app_assoc. tauto.
Qed.

(** A turn logs at most one entry. *)
Hypothesis body_one_entry :
  forall s rd,
    match body s rd with
    | Return out | Continue _ out => (List.length out <= 1)%nat
    end.

Lemma run_loop_log_length (reads : list (ReadResult R)) (s : S) :
  (List.length (fst (run_loop body s reads)) <= List.length reads)%nat.
Proof.
  revert s. induction reads as [|rd rest IH]; intros s; cbn; [lia|].
  pose proof (body_one_entry s rd) as H1.
  destruct (body s rd) as [s' out|out]; cbn.
  - specialize (IH s'). destruct (run_loop body s' rest) as [o f].
    cbn in *. rewrite length_app. lia.
  - lia.
Qed.
End RunLoopFacts.

Section ExitNotice.
Context {S R : Type}.
Variable body : S -> ReadResult R -> Step S.
Variable exit_out : list LogEntry.
Hypothesis body_return :
  forall s rd out, body s rd = Return out -> out = exit_out.
Hypothesis body_continue :
  forall s rd s' out,
    body s rd = Continue s' out -> existsb is_ExitLog out = false.

Lemma run_loop_exit_last (reads : list (ReadResult R)) (s : S) :
  match snd (run_loop body s reads) with
  | None => exists pre,
      fst (run_loop body s reads) = (pre ++ exit_out)%list
      /\ existsb is_ExitLog pre = false
  | Some _ => existsb is_ExitLog (fst (run_loop body s reads)) = false
  end.
Proof.
  revert s. induction reads as [|rd rest IH]; intros s; cbn; [reflexivity|].
  destruct (body s rd) as [s' out|out] eqn:Hb.
  - specialize (IH s'). apply body_continue in Hb.
    destruct (run_loop body s' rest) as [o [f|]]; cbn in *.
    + rewrite existsb_app, Hb, IH. reflexivity.
    + destruct IH as [pre [-> Hpre]]. exists (out ++ pre)%list.
      rewrite app_assoc, existsb_app, Hb, Hpre. split; reflexivity.
  - cbn. exists []. apply body_return in Hb. subst out. split; reflexivity.
Qed.
End ExitNotice.

(** What the three bodies have in common. *)

Lemma latency_body_forgets (Llat : bpfLatdata.layout) s1 s2 rd :
  (exists out, readLoopTcpLatency_body Llat s1 rd = Return out
               /\ readLoopTcpLatency_body Llat s2 rd = Return out)
  \/ (exists s' out,
        readLoopTcpLatency_body Llat s1 rd = Continue s' out
        /\ readLoopTcpLatency_body Llat s2 rd = Continue s' out)
  \/ (exists out,
        readLoopTcpLatency_body Llat s1 rd = Continue s1 out
        /\ readLoopTcpLatency_body Llat s2 rd = Continue s2 out).
Proof.
  unfold readLoopTcpLatency_body. destruct rd as [record|err].
  - destruct (negb _); [right; right; eauto|].
    destruct (binary_Read _ _ _); [right; right; eauto|].
    destruct (comm_is_sipp _); right; left; eauto.
  - destruct (errors_Is_ErrClosed err); [left|right; right]; eauto.
Qed.

Lemma message_body_forgets (Lev : bpfEvent.layout) s1 s2 rd :
  (exists out, readLoopSipMessages_body Lev s1 rd = Return out
               /\ readLoopSipMessages_body Lev s2 rd = Return out)
  \/ (exists s' out,
        readLoopSipMessages_body Lev s1 rd = Continue s' out
        /\ readLoopSipMessages_body Lev s2 rd = Continue s' out)
  \/ (exists out,
        readLoopSipMessages_body Lev s1 rd = Continue s1 out
        /\ readLoopSipMessages_body Lev s2 rd = Continue s2 out).
Proof.
  unfold readLoopSipMessages_body. destruct rd as [record|err].
  - destruct (binary_Read _ _ _); [right; right; eauto|].
    destruct (comm_is_sipp _); right; left; eauto.
  - destruct (errors_Is_ErrClosed err); [left|right; right]; eauto.
Qed.

Lemma tcpclose_body_forgets o (Ltcp : bpfTcpevent.layout) s1 s2 rd :
  (exists out, readLoopTcpClose_body o Ltcp s1 rd = Return out
               /\ readLoopTcpClose_body o Ltcp s2 rd = Return out)
  \/ (exists s' out,
        readLoopTcpClose_body o Ltcp s1 rd = Continue s' out
        /\ readLoopTcpClose_body o Ltcp s2 rd = Continue s' out)
  \/ (exists out,
        readLoopTcpClose_body o Ltcp s1 rd = Continue s1 out
        /\ readLoopTcpClose_body o Ltcp s2 rd = Continue s2 out).
Proof.
  unfold readLoopTcpClose_body. destruct rd as [record|err].
  - destruct (binary_Read _ _ _); [right; right; eauto|].
    destruct (comm_is_sipp _); right; left; eauto.
  - destruct (errors_Is_ErrClosed err); [left|right; right]; eauto.
Qed.

Lemma latency_body_closed (Llat : bpfLatdata.layout) s rd :
  is_closed rd = true ->
  exists out, readLoopTcpLatency_body Llat s rd = Return out.
Proof.
  destruct rd as [record|err]; [discriminate|].
  cbn. intros ->. eauto.
Qed.

Lemma message_body_closed (Lev : bpfEvent.layout) s rd :
  is_closed rd = true ->
  exists out, readLoopSipMessages_body Lev s rd = Return out.
Proof.
  destruct rd as [record|err]; [discriminate|].
  cbn. intros ->. eauto.
Qed.

Lemma tcpclose_body_closed o (Ltcp : bpfTcpevent.layout) s rd :
  is_closed rd = true ->
  exists out, readLoopTcpClose_body o Ltcp s rd = Return out.
Proof.
  destruct rd as [record|err]; [discriminate|].
  cbn. intros ->. eauto.
Qed.

Lemma latency_body_not_closed (Llat : bpfLatdata.layout) s rd :
  is_closed rd = false ->
  exists s' out, readLoopTcpLatency_body Llat s rd = Continue s' out.
Proof.
  destruct rd as [record|err]; [intros _; apply latency_body_open|].
  cbn. intros ->. eauto.
Qed.

Lemma message_body_not_closed (Lev : bpfEvent.layout) s rd :
  is_closed rd = false ->
  exists s' out, readLoopSipMessages_body Lev s rd = Continue s' out.
Proof.
  destruct rd as [record|err]; [intros _; apply message_body_open|].
  cbn. intros ->. eauto.
Qed.

Lemma tcpclose_body_not_closed o (Ltcp : bpfTcpevent.layout) s rd :
  is_closed rd = false ->
  exists s' out, readLoopTcpClose_body o Ltcp s rd = Continue s' out.
Proof.
  destruct rd as [record|err]; [intros _; apply tcpclose_body_open|].
  cbn. intros ->. eauto.
Qed.

(** X2.  The variable declared before each loop is written by every
    successful decode and read only after it: what a loop logs, and whether
    it returns, does not depend on what the variable held when the run
    began, so no field of an earlier record can show up in a later line. *)
Theorem loop_variable_never_leaks
    (NativeEndian : ByteOrder) (Llat : bpfLatdata.layout)
    (Lev : bpfEvent.layout) (Ltcp : bpfTcpevent.layout) :
  (forall e1 e2 reads,
      fst (run_loop (readLoopTcpLatency_body Llat) e1 reads)
      = fst (run_loop (readLoopTcpLatency_body Llat) e2 reads)
      /\ (snd (run_loop (readLoopTcpLatency_body Llat) e1 reads) = None
          <-> snd (run_loop (readLoopTcpLatency_body Llat) e2 reads) = None))
  /\ (forall e1 e2 reads,
      fst (run_loop (readLoopSipMessages_body Lev) e1 reads)
      = fst (run_loop (readLoopSipMessages_body Lev) e2 reads)
      /\ (snd (run_loop (readLoopSipMessages_body Lev) e1 reads) = None
          <-> snd (run_loop (readLoopSipMessages_body Lev) e2 reads) = None))
  /\ (forall e1 e2 reads,
      fst (run_loop (readLoopTcpClose_body NativeEndian Ltcp) e1 reads)
      = fst (run_loop (readLoopTcpClose_body NativeEndian Ltcp) e2 reads)
      /\ (snd (run_loop (readLoopTcpClose_body NativeEndian Ltcp) e1 reads)
          = None
          <-> snd (run_loop (readLoopTcpClose_body NativeEndian Ltcp) e2 reads)
              = None)).
Proof.
  split; [|split]; intros e1 e2 reads; apply run_loop_forgets.
  - apply latency_body_forgets.
  - apply message_body_forgets.
  - apply tcpclose_body_forgets.
Qed.

(** X3.  A loop keeps nothing from one read to the next: as long as no read
    has returned the closed result, the log of a run on a sequence of reads
    followed by another is the log of the first sequence followed by the
    log of the second, each run from the start. *)
Theorem runs_compose
    (NativeEndian : ByteOrder) (Llat : bpfLatdata.layout)
    (Lev : bpfEvent.layout) (Ltcp : bpfTcpevent.layout) :
  (forall r1 r2,
      existsb is_closed r1 = false ->
      fst (readLoopTcpLatency Llat (r1 ++ r2))
      = (fst (readLoopTcpLatency Llat r1)
         ++ fst (readLoopTcpLatency Llat r2))%list)
  /\ (forall r1 r2,
      existsb is_closed r1 = false ->
      fst (readLoopSipMessages Lev (r1 ++ r2))
      = (fst (readLoopSipMessages Lev r1)
         ++ fst (readLoopSipMessages Lev r2))%list)
  /\ (forall r1 r2,
      existsb is_closed r1 = false ->
      fst (readLoopTcpClose NativeEndian Ltcp (r1 ++ r2))
      = (fst (readLoopTcpClose NativeEndian Ltcp r1)
         ++ fst (readLoopTcpClose NativeEndian Ltcp r2))%list).
Proof.
  split; [|split]; intros r1 r2 H.
  - apply run_loop_app_open;
      [apply latency_body_forgets|apply latency_body_not_closed|exact H].
  - apply run_loop_app_open;
      [apply message_body_forgets|apply message_body_not_closed|exact H].
  - apply run_loop_app_open;
      [apply tcpclose_body_forgets|apply tcpclose_body_not_closed|exact H].
Qed.

Lemma runs_compose_witness :
  existsb is_closed
    [ReadOk {| perf.RawSample := latency_raw "curl"; perf.LostSamples := 0 |};
     ReadErr (errorString "interrupted system call")] = false
  /\ fst (readLoopTcpLatency latdata_layout
            ([ReadOk {| perf.RawSample := latency_raw "curl";
                        perf.LostSamples := 0 |};
              ReadErr (errorString "interrupted system call")]
             ++ [ReadOk {| perf.RawSample := [x00];
                           perf.LostSamples := 0 |}]))
     = (fst (readLoopTcpLatency latdata_layout
               [ReadOk {| perf.RawSample := latency_raw "curl";
                          perf.LostSamples := 0 |};
                ReadErr (errorString "interrupted system call")])
        ++ fst (readLoopTcpLatency latdata_layout
                  [ReadOk {| perf.RawSample := [x00];
                             perf.LostSamples := 0 |}]))%list.
Proof.
  split; [reflexivity|].
  apply (proj1 (runs_compose LittleEndian latdata_layout event_layout
                  tcpevent_layout)).
  reflexivity.
Defined.

(** X4.  Once a read has returned the closed result the function has
    returned: whatever later reads would give changes neither the log nor
    the outcome. *)
Theorem nothing_after_close
    (NativeEndian : ByteOrder) (Llat : bpfLatdata.layout)
    (Lev : bpfEvent.layout) (Ltcp : bpfTcpevent.layout) :
  (forall r1 r2,
      existsb is_closed r1 = true ->
      readLoopTcpLatency Llat (r1 ++ r2) = readLoopTcpLatency Llat r1)
  /\ (forall r1 r2,
      existsb is_closed r1 = true ->
      readLoopSipMessages Lev (r1 ++ r2) = readLoopSipMessages Lev r1)
  /\ (forall r1 r2,
      existsb is_closed r1 = true ->
      readLoopTcpClose NativeEndian Ltcp (r1 ++ r2)
      = readLoopTcpClose NativeEndian Ltcp r1).
Proof.
  split; [|split]; intros r1 r2 H.
  - apply run_loop_app_closed;
      [apply latency_body_closed|apply latency_body_not_closed|exact H].
  - apply run_loop_app_closed;
      [apply message_body_closed|apply message_body_not_closed|exact H].
  - apply run_loop_app_closed;
      [apply tcpclose_body_closed|apply tcpclose_body_not_closed|exact H].
Qed.

Lemma nothing_after_close_witness :
  existsb is_closed
    [ReadOk {| ringbuf.RawSample := message_raw "sipp" |};
     ReadErr (wrapError "ringbuffer: file already closed" ErrClosed)] = true
  /\ readLoopSipMessages event_layout
       ([ReadOk {| ringbuf.RawSample := message_raw "sipp" |};
         ReadErr (wrapError "ringbuffer: file already closed" ErrClosed)]
        ++ [ReadOk {| ringbuf.RawSample := message_raw "sipp" |}])
     = readLoopSipMessages event_layout
         [ReadOk {| ringbuf.RawSample := message_raw "sipp" |};
          ReadErr (wrapError "ringbuffer: file already closed" ErrClosed)].
Proof.
  split; [reflexivity|].
  apply (proj1 (proj2 (nothing_after_close LittleEndian latdata_layout
                         event_layout tcpevent_layout))).
  reflexivity.
Defined.

Section EventLineCount.
Context {S R : Type}.
Variable body : S -> ReadResult R -> Step S.
Hypothesis body_event_lines :
  forall s rd,
    match body s rd with
    | Return out | Continue _ out =>
      (List.length (filter is_EventLine out)
       <= if is_ReadOk rd then 1 else 0)%nat
    end.

Lemma run_loop_event_lines (reads : list (ReadResult R)) (s : S) :
  (List.length (filter is_EventLine (fst (run_loop body s reads)))
   <= List.length (filter is_ReadOk reads))%nat.
Proof.
  revert s. induction reads as [|rd rest IH]; intros s; cbn; [lia|].
  pose proof (body_event_lines s rd) as H1.
  destruct (body s rd) as [s' out|out]; cbn.
  - specialize (IH s'). destruct (run_loop body s' rest) as [o f].
    cbn in *. rewrite filter_app, length_app.
    destruct (is_ReadOk rd); cbn; lia.
  - destruct (is_ReadOk rd); cbn; lia.
Qed.
End EventLineCount.

Lemma latency_body_entries (Llat : bpfLatdata.layout) s rd :
  match readLoopTcpLatency_body Llat s rd with
  | Return out | Continue _ out =>
    (List.length out <= 1)%nat
    /\ (List.length (filter is_EventLine out)
        <= if is_ReadOk rd then 1 else 0)%nat
    /\ existsb is_ExitLog out = false
  end.
Proof.
  unfold readLoopTcpLatency_body. destruct rd as [record|err].
  - destruct (negb _); [cbn; auto|].
    destruct (binary_Read _ _ _); [cbn; auto|].
    destruct (comm_is_sipp _); cbn; auto.
  - destruct (errors_Is_ErrClosed err); cbn; auto.
Qed.

Lemma message_body_entries (Lev : bpfEvent.layout) s rd :
  match readLoopSipMessages_body Lev s rd with
  | Return out =>
    out = [ExitLog (log_Output "Received signal, exiting..")]
    /\ is_ReadOk rd = false
  | Continue _ out =>
    (List.length out <= 1)%nat
    /\ (List.length (filter is_EventLine out)
        <= if is_ReadOk rd then 1 else 0)%nat
    /\ existsb is_ExitLog out = false
  end.
Proof.
  unfold readLoopSipMessages_body. destruct rd as [record|err].
  - destruct (binary_Read _ _ _); [cbn; auto|].
    destruct (comm_is_sipp _); cbn; auto.
  - destruct (errors_Is_ErrClosed err); cbn; auto.
Qed.

Lemma tcpclose_body_entries o (Ltcp : bpfTcpevent.layout) s rd :
  match readLoopTcpClose_body o Ltcp s rd with
  | Return out =>
    out = [ExitLog (log_Output "received signal, exiting..")]
    /\ is_ReadOk rd = false
  | Continue _ out =>
    (List.length out <= 1)%nat
    /\ (List.length (filter is_EventLine out)
        <= if is_ReadOk rd then 1 else 0)%nat
    /\ existsb is_ExitLog out = false
  end.
Proof.
  unfold readLoopTcpClose_body. destruct rd as [record|err].
  - destruct (binary_Read _ _ _); [cbn; auto|].
    destruct (comm_is_sipp _); cbn; auto.
  - destruct (errors_Is_ErrClosed err); cbn; auto.
Qed.

(** X5.  A loop logs at most one entry for each read, and at most one event
    line for each read that returned a record: a run never logs more entries
    than it made reads, nor more event lines than it got records. *)
Theorem one_entry_per_read
    (NativeEndian : ByteOrder) (Llat : bpfLatdata.layout)
    (Lev : bpfEvent.layout) (Ltcp : bpfTcpevent.layout) :
  (forall reads,
      (List.length (fst (readLoopTcpLatency Llat reads))
       <= List.length reads)%nat
      /\ (List.length (filter is_EventLine
                         (fst (readLoopTcpLatency Llat reads)))
          <= List.length (filter is_ReadOk reads))%nat)
  /\ (forall reads,
      (List.length (fst (readLoopSipMessages Lev reads))
       <= List.length reads)%nat
      /\ (List.length (filter is_EventLine
                         (fst (readLoopSipMessages Lev reads)))
          <= List.length (filter is_ReadOk reads))%nat)
  /\ (forall reads,
      (List.length (fst (readLoopTcpClose NativeEndian Ltcp reads))
       <= List.length reads)%nat
      /\ (List.length (filter is_EventLine
                         (fst (readLoopTcpClose NativeEndian Ltcp reads)))
          <= List.length (filter is_ReadOk reads))%nat).
Proof.
  split; [|split]; intros reads; split.
  - apply run_loop_log_length. intros s rd.
    pose proof (latency_body_entries Llat s rd) as H.
    destruct (readLoopTcpLatency_body Llat s rd); tauto.
  - apply run_loop_event_lines. intros s rd.
    pose proof (latency_body_entries Llat s rd) as H.
    destruct (readLoopTcpLatency_body Llat s rd); tauto.
  - apply run_loop_log_length. intros s rd.
    pose proof (message_body_entries Lev s rd) as H.
    destruct (readLoopSipMessages_body Lev s rd);
      [tauto|destruct H as [-> _]; cbn; lia].
  - apply run_loop_event_lines. intros s rd.
    pose proof (message_body_entries Lev s rd) as H.
    destruct (readLoopSipMessages_body Lev s rd);
      [tauto|destruct H as [-> ->]; cbn; lia].
  - apply run_loop_log_length. intros s rd.
    pose proof (tcpclose_body_entries NativeEndian Ltcp s rd) as H.
    destruct (readLoopTcpClose_body NativeEndian Ltcp s rd);
      [tauto|destruct H as [-> _]; cbn; lia].
  - apply run_loop_event_lines. intros s rd.
    pose proof (tcpclose_body_entries NativeEndian Ltcp s rd) as H.
    destruct (readLoopTcpClose_body NativeEndian Ltcp s rd);
      [tauto|destruct H as [-> ->]; cbn; lia].
Qed.

(** X6.  The exit notice.  The perf loop never prints one.  Each ring-buffer
    loop prints its notice exactly when it returns: a run that has returned
    ends its log with the notice and has none before it, and a run that has
    not returned has logged none. *)
Theorem exit_notice_only_on_return
    (NativeEndian : ByteOrder) (Llat : bpfLatdata.layout)
    (Lev : bpfEvent.layout) (Ltcp : bpfTcpevent.layout) :
  (forall reads,
      existsb is_ExitLog (fst (readLoopTcpLatency Llat reads)) = false)
  /\ (forall reads,
      match snd (readLoopSipMessages Lev reads) with
      | None => exists pre,
          fst (readLoopSipMessages Lev reads)
          = (pre ++ [ExitLog (log_Output "Received signal, exiting..")])%list
          /\ existsb is_ExitLog pre = false
      | Some _ =>
        existsb is_ExitLog (fst (readLoopSipMessages Lev reads)) = false
      end)
  /\ (forall reads,
      match snd (readLoopTcpClose NativeEndian Ltcp reads) with
      | None => exists pre,
          fst (readLoopTcpClose NativeEndian Ltcp reads)
          = (pre ++ [ExitLog (log_Output "received signal, exiting..")])%list
          /\ existsb is_ExitLog pre = false
      | Some _ =>
        existsb is_ExitLog (fst (readLoopTcpClose NativeEndian Ltcp reads))
        = false
      end).
Proof.
  split; [|split]; intros reads.
  - assert (Hr : forall s rd out,
               readLoopTcpLatency_body Llat s rd = Return out -> out = []).
    { intros s rd out Hb. unfold readLoopTcpLatency_body in Hb.
      destruct rd as [record|err].
      - destruct (negb _); [discriminate|].
        destruct (binary_Read _ _ _); [discriminate|].
        destruct (comm_is_sipp _); discriminate.
      - destruct (errors_Is_ErrClosed err); [|discriminate].
        injection Hb as <-. reflexivity. }
    assert (Hc : forall s rd s' out,
               readLoopTcpLatency_body Llat s rd = Continue s' out ->
               existsb is_ExitLog out = false).
    { intros s rd s' out Hb.
      pose proof (latency_body_entries Llat s rd) as E. rewrite Hb in E.
      tauto. }
    pose proof (run_loop_exit_last (readLoopTcpLatency_body Llat) [] Hr Hc
                  reads (bpfLatdata.zero Llat)) as H.
    unfold readLoopTcpLatency.
    destruct (snd (run_loop _ _ _)); [exact H|].
    destruct H as [pre [-> Hpre]]. rewrite app_nil_r. exact Hpre.
  - unfold readLoopSipMessages. apply run_loop_exit_last.
    + intros s rd out Hb.
      pose proof (message_body_entries Lev s rd) as E. rewrite Hb in E.
      tauto.
    + intros s rd s' out Hb.
      pose proof (message_body_entries Lev s rd) as E. rewrite Hb in E.
      tauto.
  - unfold readLoopTcpClose. apply run_loop_exit_last.
    + intros s rd out Hb.
      pose proof (tcpclose_body_entries NativeEndian Ltcp s rd) as E.
      rewrite Hb in E. tauto.
    + intros s rd s' out Hb.
      pose proof (tcpclose_body_entries NativeEndian Ltcp s rd) as E.
      rewrite Hb in E. tauto.
Qed.

(** ** What the event lines show *)

(** A name that passes the filter is printed with its first four bytes,
    none of which is the NUL that would end it. *)
Lemma comm_is_sipp_name (Comm : list byte) :
  comm_is_sipp Comm = true ->
  ByteSliceToString Comm = "sipp" ++ ByteSliceToString (skipn 4 Comm).
Proof.
  unfold comm_is_sipp, idx. intros H.
  change 115 with (u8 x73) in H. change 105 with (u8 x69) in H.
  change 112 with (u8 x70) in H.
  rewrite !andb_true_iff, !u8_eqb in H. destruct H as [[[H0 H1] H2] H3].
  destruct Comm as [|c0 [|c1 [|c2 [|c3 rest]]]]; cbn [nth] in *;
    try discriminate.
  subst c0 c1 c2 c3. reflexivity.
Qed.

Lemma latency_line_passed (Llat : bpfLatdata.layout) event rd event' out line :
  readLoopTcpLatency_body Llat event rd = Continue event' out ->
  In (EventLine line) out ->
  line = latency_line event' /\ comm_is_sipp (bpfLatdata.Comm event') = true.
Proof.
  unfold readLoopTcpLatency_body. intros Hb Hin.
  destruct rd as [record|err].
  - destruct (negb _).
    + injection Hb as <- <-. destruct Hin as [E|[]]. discriminate.
    + destruct (binary_Read _ _ _) as [err|ev].
      * injection Hb as <- <-. destruct Hin as [E|[]]. discriminate.
      * destruct (comm_is_sipp _) eqn:Ec; injection Hb as <- <-;
          [|destruct Hin].
        destruct Hin as [E|[]]. injection E as <-. auto.
  - destruct (errors_Is_ErrClosed err); [discriminate|].
    injection Hb as <- <-. destruct Hin as [E|[]]. discriminate.
Qed.

Lemma message_line_passed (Lev : bpfEvent.layout) event rd event' out line :
  readLoopSipMessages_body Lev event rd = Continue event' out ->
  In (EventLine line) out ->
  line = message_line event' /\ comm_is_sipp (bpfEvent.Comm event') = true.
Proof.
  unfold readLoopSipMessages_body. intros Hb Hin.
  destruct rd as [record|err].
  - destruct (binary_Read _ _ _) as [err|ev].
    + injection Hb as <- <-. destruct Hin as [E|[]]. discriminate.
    + destruct (comm_is_sipp _) eqn:Ec; injection Hb as <- <-;
        [|destruct Hin].
      destruct Hin as [E|[]]. injection E as <-. auto.
  - destruct (errors_Is_ErrClosed err); [discriminate|].
    injection Hb as <- <-. destruct Hin as [E|[]]. discriminate.
Qed.

Lemma tcpclose_line_passed o (Ltcp : bpfTcpevent.layout)
    event rd event' out line :
  readLoopTcpClose_body o Ltcp event rd = Continue event' out ->
  In (EventLine line) out ->
  line = tcpclose_line o event'
  /\ comm_is_sipp (bpfTcpevent.Comm event') = true.
Proof.
  unfold readLoopTcpClose_body. intros Hb Hin.
  destruct rd as [record|err].
  - destruct (binary_Read _ _ _) as [err|ev].
    + injection Hb as <- <-. destruct Hin as [E|[]]. discriminate.
    + destruct (comm_is_sipp _) eqn:Ec; injection Hb as <- <-;
        [|destruct Hin].
      destruct Hin as [E|[]]. injection E as <-. auto.
  - destruct (errors_Is_ErrClosed err); [discriminate|].
    injection Hb as <- <-. destruct Hin as [E|[]]. discriminate.
Qed.

(** X7.  The process name shown in an event line always begins with "sipp":
    the four bytes the filter compared are printed, followed by the bytes of
    the field after them up to its first NUL. *)
Theorem printed_name_begins_with_sipp
    (NativeEndian : ByteOrder) (Llat : bpfLatdata.layout)
    (Lev : bpfEvent.layout) (Ltcp : bpfTcpevent.layout) :
  (forall event rd event' out line,
      readLoopTcpLatency_body Llat event rd = Continue event' out ->
      In (EventLine line) out ->
      line = log_Output
               ("Latency: " ++ fmt_ms (bpfLatdata.DeltaUs event') ++ TAB
                ++ "comm: " ++ "sipp"
                ++ ByteSliceToString (skipn 4 (bpfLatdata.Comm event'))))
  /\ (forall event rd event' out line,
      readLoopSipMessages_body Lev event rd = Continue event' out ->
      In (EventLine line) out ->
      line = log_Output
               ("pid: " ++ fmt_d (bpfEvent.Pid event') ++ TAB
                ++ "fd: " ++ fmt_d (bpfEvent.Fd event') ++ TAB
                ++ "len: " ++ fmt_d (bpfEvent.Len event') ++ TAB
                ++ "comm: "
                ++ ("sipp" ++ ByteSliceToString (skipn 4 (bpfEvent.Comm event')))
                ++ NL ++ ByteSliceToString (bpfEvent.Msg event')
                ++ " " ++ NL ++ NL))
  /\ (forall tcpevent rd tcpevent' out line,
      readLoopTcpClose_body NativeEndian Ltcp tcpevent rd
      = Continue tcpevent' out ->
      In (EventLine line) out ->
      line = log_Output
               (pad_right 15
                  (IP_String (intToIP NativeEndian
                                (bpfTcpevent.Saddr tcpevent')))
                ++ " " ++ pad_right 6 (fmt_d (bpfTcpevent.Sport tcpevent'))
                ++ " -> "
                ++ pad_right 15
                     (IP_String (intToIP NativeEndian
                                   (bpfTcpevent.Daddr tcpevent')))
                ++ " " ++ pad_right 6 (fmt_d (bpfTcpevent.Dport tcpevent'))
                ++ " " ++ fmt_ms (bpfTcpevent.Srtt tcpevent') ++ " "
                ++ pad_right 6
                     ("sipp"
                      ++ ByteSliceToString
                           (skipn 4 (bpfTcpevent.Comm tcpevent'))))).
Proof.
  split; [|split]; intros event rd event' out line Hb Hin.
  - destruct (latency_line_passed _ _ _ _ _ _ Hb Hin) as [-> Hc].
    unfold latency_line. rewrite (comm_is_sipp_name _ Hc). reflexivity.
  - destruct (message_line_passed _ _ _ _ _ _ Hb Hin) as [-> Hc].
    unfold message_line. rewrite (comm_is_sipp_name _ Hc). reflexivity.
  - destruct (tcpclose_line_passed _ _ _ _ _ _ _ Hb Hin) as [-> Hc].
    unfold tcpclose_line. rewrite (comm_is_sipp_name _ Hc). reflexivity.
Qed.

Lemma printed_name_begins_with_sipp_witness :
  readLoopTcpLatency_body latdata_layout (bpfLatdata.zero latdata_layout)
    (ReadOk {| perf.RawSample := latency_raw "sippy-cup";
               perf.LostSamples := 0 |})
  = Continue
      (bpfLatdata.value latdata_layout LittleEndian (latency_raw "sippy-cup"))
      [EventLine ("Latency: 1.50" ++ TAB ++ "comm: sippy-cup" ++ NL)]
  /\ "Latency: 1.50" ++ TAB ++ "comm: sippy-cup" ++ NL
     = log_Output
         ("Latency: "
          ++ fmt_ms (bpfLatdata.DeltaUs
                       (bpfLatdata.value latdata_layout LittleEndian
                          (latency_raw "sippy-cup")))
          ++ TAB ++ "comm: " ++ "sipp"
          ++ ByteSliceToString
               (skipn 4 (bpfLatdata.Comm
                           (bpfLatdata.value latdata_layout LittleEndian
                              (latency_raw "sippy-cup"))))).
Proof.
  assert (Hrun : readLoopTcpLatency_body latdata_layout
                   (bpfLatdata.zero latdata_layout)
                   (ReadOk {| perf.RawSample := latency_raw "sippy-cup";
                              perf.LostSamples := 0 |})
                 = Continue
                     (bpfLatdata.value latdata_layout LittleEndian
                        (latency_raw "sippy-cup"))
                     [EventLine
                        ("Latency: 1.50" ++ TAB ++ "comm: sippy-cup" ++ NL)])
    by reflexivity.
  split; [exact Hrun|].
  exact (proj1 (printed_name_begins_with_sipp LittleEndian latdata_layout
                  event_layout tcpevent_layout)
           _ _ _ _ _ Hrun (or_introl eq_refl)).
Defined.

(** A duration that is a whole number of hundredths of a millisecond. *)
Lemma fmt_ms_whole_hundredths (k : Z) :
  0 <= k -> 10 * k < 2 ^ 52 -> fmt_ms (10 * k) = fixed2 k.
Proof.
  intros Hk Hb.
  destruct (fmt_ms_accurate (10 * k) ltac:(lia)) as [n [-> [Hn Hnear]]].
  f_equal. lia.
Qed.

(** X8.  A duration of a whole number [k] of hundredths of a millisecond,
    below 2^52 microseconds, is printed exactly: the text is [k / 100], a
    point, and the two digits of [k mod 100]; the division in [float64]
    loses nothing that shows in two places. *)
Theorem whole_hundredths_are_exact
    (NativeEndian : ByteOrder) (Llat : bpfLatdata.layout)
    (Ltcp : bpfTcpevent.layout) (k : Z) :
  0 <= k -> 10 * k < 2 ^ 52 ->
  (forall event rd event' out line,
      readLoopTcpLatency_body Llat event rd = Continue event' out ->
      In (EventLine line) out ->
      bpfLatdata.DeltaUs event' = 10 * k ->
      line = log_Output
               ("Latency: "
                ++ (fmt_d (k / 100) ++ "."
                    ++ String (digit ((k / 10) mod 10))
                         (String (digit (k mod 10)) ""))
                ++ TAB ++ "comm: "
                ++ ByteSliceToString (bpfLatdata.Comm event')))
  /\ (forall tcpevent rd tcpevent' out line,
      readLoopTcpClose_body NativeEndian Ltcp tcpevent rd
      = Continue tcpevent' out ->
      In (EventLine line) out ->
      bpfTcpevent.Srtt tcpevent' = 10 * k ->
      line = log_Output
               (pad_right 15
                  (IP_String (intToIP NativeEndian
                                (bpfTcpevent.Saddr tcpevent')))
                ++ " " ++ pad_right 6 (fmt_d (bpfTcpevent.Sport tcpevent'))
                ++ " -> "
                ++ pad_right 15
                     (IP_String (intToIP NativeEndian
                                   (bpfTcpevent.Daddr tcpevent')))
                ++ " " ++ pad_right 6 (fmt_d (bpfTcpevent.Dport tcpevent'))
                ++ " "
                ++ (fmt_d (k / 100) ++ "."
                    ++ String (digit ((k / 10) mod 10))
                         (String (digit (k mod 10)) ""))
                ++ " "
                ++ pad_right 6
                     (ByteSliceToString (bpfTcpevent.Comm tcpevent')))).
Proof.
  intros Hk Hb. pose proof (fmt_ms_whole_hundredths k Hk Hb) as E.
  unfold fixed2 in E.
  split; intros event rd event' out line Hrun Hin Hv.
  - destruct (latency_line_passed _ _ _ _ _ _ Hrun Hin) as [-> _].
    unfold latency_line. rewrite Hv, E. reflexivity.
  - destruct (tcpclose_line_passed _ _ _ _ _ _ _ Hrun Hin) as [-> _].
    unfold tcpclose_line. rewrite Hv, E. reflexivity.
Qed.

Lemma whole_hundredths_are_exact_witness :
  (0 <= 150 /\ 10 * 150 < 2 ^ 52)
  /\ bpfLatdata.DeltaUs
       (bpfLatdata.value latdata_layout LittleEndian (latency_raw "sipp"))
     = 10 * 150
  /\ "Latency: 1.50" ++ TAB ++ "comm: sipp" ++ NL
     = log_Output
         ("Latency: "
          ++ (fmt_d (150 / 100) ++ "."
              ++ String (digit ((150 / 10) mod 10))
                   (String (digit (150 mod 10)) ""))
          ++ TAB ++ "comm: "
          ++ ByteSliceToString
               (bpfLatdata.Comm
                  (bpfLatdata.value latdata_layout LittleEndian
                     (latency_raw "sipp")))).
Proof.
  split; [lia|]. split; [reflexivity|].
  apply (proj1 (whole_hundredths_are_exact LittleEndian latdata_layout
                  tcpevent_layout 150 ltac:(lia) ltac:(lia))
           (bpfLatdata.zero latdata_layout)
           (ReadOk {| perf.RawSample := latency_raw "sipp";
                      perf.LostSamples := 0 |})
           (bpfLatdata.value latdata_layout LittleEndian (latency_raw "sipp"))
           [EventLine ("Latency: 1.50" ++ TAB ++ "comm: sipp" ++ NL)]);
    [reflexivity|left; reflexivity|reflexivity].
Defined.

(** ** The address column *)










(** ** The range of the decoded fields *)

Lemma to_signed_range (w : nat) (x : Z) :
  (0 < w)%nat -> 0 <= x < 2 ^ (8 * Z.of_nat w) ->
  - 2 ^ (8 * Z.of_nat w - 1) <= to_signed w x < 2 ^ (8 * Z.of_nat w - 1).
Proof.
  intros Hw Hx. unfold to_signed.
  assert (E : 2 ^ (8 * Z.of_nat w) = 2 * 2 ^ (8 * Z.of_nat w - 1)).
  { rewrite <- Z.pow_succ_r by lia. f_equal. lia. }
  destruct (Z.ltb_spec x (2 ^ (8 * Z.of_nat w - 1))); lia.
Qed.

(** X10.  Every integer a loop decodes lies in the range of the Go type of
    its field: between 0 and 2^(8w) for an unsigned type of [w] bytes, and
    between -2^(8w-1) and 2^(8w-1) for a signed one; whatever the record
    holds and however long it is.  In particular the addresses handed to
    [intToIP] are always 32-bit values. *)
Theorem decoded_integers_fit_their_type
    (o : ByteOrder) (f : IntField) (buf : list byte) :
  (if signed_kind (int_kind f)
   then - 2 ^ (8 * Z.of_nat (kind_size (int_kind f)) - 1)
        <= get_int o f buf
        < 2 ^ (8 * Z.of_nat (kind_size (int_kind f)) - 1)
   else 0 <= get_int o f buf < 2 ^ (8 * Z.of_nat (kind_size (int_kind f))))
  /\ (forall Ltcp,
      0 <= bpfTcpevent.Saddr (bpfTcpevent.value Ltcp o buf) < 2 ^ 32
      /\ 0 <= bpfTcpevent.Daddr (bpfTcpevent.value Ltcp o buf) < 2 ^ 32).
Proof.
  split.
  - unfold get_int.
    set (b := slice buf (int_off f) (kind_size (int_kind f))).
    pose proof (u8_range (idx b 0)) as H8.
    pose proof (Uint16_range o b) as H16.
    pose proof (Uint32_range o b) as H32.
    pose proof (Uint64_range o b) as H64.
    destruct (int_kind f); cbn [signed_kind kind_size decode_int];
      try (apply to_signed_range; [lia|]);
      cbn [Z.of_nat Pos.of_succ_nat Pos.succ Z.mul Pos.mul]; assumption.
  - intros Ltcp. cbn [bpfTcpevent.value bpfTcpevent.Saddr bpfTcpevent.Daddr].
    unfold get_int. cbn [bpfTcpevent.Saddr_f bpfTcpevent.Daddr_f int_kind
                         decode_int].
    split; apply Uint32_range.
Qed.

(** * Further properties of main *)

Lemma calls_all_or_some (fails : Call -> option error) :
  (forall c, fails c = None) \/ (exists c err, fails c = Some err).
Proof.
  destruct (fails RemoveMemlock) eqn:E0; [eauto|].
  destruct (fails (Open objs)) eqn:E1; [eauto|].
  destruct (fails (Open kp1)) eqn:E2; [eauto|].
  destruct (fails (Open kp2)) eqn:E3; [eauto|].
  destruct (fails (Open kp3)) eqn:E4; [eauto|].
  destruct (fails (Open kp4)) eqn:E5; [eauto|].
  destruct (fails (Open link)) eqn:E6; [eauto|].
  destruct (fails (Open rd1)) eqn:E7; [eauto|].
  destruct (fails (Open rd2)) eqn:E8; [eauto|].
  destruct (fails (Open rd3)) eqn:E9; [eauto|].
  left. intros [|[]]; assumption.
Qed.

(** Solves the goals about a run of [main] that ended in a fatal error:
    the trace is then a closed list. *)
Ltac fatal_run :=
  repeat split;
  try reflexivity;
  try (intros r Hin; cbn in Hin;
       repeat (destruct Hin as [<-|Hin]; [assumption|]); contradiction);
  first [ exists 0%nat; reflexivity | exists 1%nat; reflexivity
        | exists 2%nat; reflexivity | exists 3%nat; reflexivity
        | exists 4%nat; reflexivity | exists 5%nat; reflexivity
        | exists 6%nat; reflexivity | exists 7%nat; reflexivity
        | exists 8%nat; reflexivity | exists 9%nat; reflexivity
        | idtac ].

(** A startup that fails: the calls made before the failing one succeeded
    in order, no loop was started, and the fatal entry ends the trace. *)
Lemma main_fatal_trace (fails : Call -> option error) (signalled : bool)
    (c : Call) (err : error) :
  fails c = Some err ->
  started (fst (main fails signalled)) = []
  /\ (exists k,
        opened (fst (main fails signalled)) = firstn k acquisition_order)
  /\ (forall r, In r (opened (fst (main fails signalled))) ->
                fails (Open r) = None)
  /\ opened (fst (main fails signalled)) <> acquisition_order.
Proof.
  intros Hc. unfold main, main_body, call, wait_stopper.
  destruct (fails RemoveMemlock) eqn:E0; [fatal_run; discriminate|].
  destruct (fails (Open objs)) eqn:E1; [fatal_run; discriminate|].
  destruct (fails (Open kp1)) eqn:E2; [fatal_run; discriminate|].
  destruct (fails (Open kp2)) eqn:E3; [fatal_run; discriminate|].
  destruct (fails (Open kp3)) eqn:E4; [fatal_run; discriminate|].
  destruct (fails (Open kp4)) eqn:E5; [fatal_run; discriminate|].
  destruct (fails (Open link)) eqn:E6; [fatal_run; discriminate|].
  destruct (fails (Open rd1)) eqn:E7; [fatal_run; discriminate|].
  destruct (fails (Open rd2)) eqn:E8; [fatal_run; discriminate|].
  destruct (fails (Open rd3)) eqn:E9; [fatal_run; discriminate|].
  destruct c as [|[]]; congruence.
Qed.

(** X11.  How [main] ends.  The process ends with status 1 exactly when one
    of the ten startup calls fails; it ends with status 0 exactly when all
    of them succeed and a termination signal arrives; and [main] stays
    blocked on the signal channel exactly when all succeed and no signal
    arrives. *)
Theorem main_outcome (fails : Call -> option error) (signalled : bool) :
  (snd (main fails signalled) = Exit 1 <-> exists c, fails c <> None)
  /\ (snd (main fails signalled) = Exit 0
      <-> (forall c, fails c = None) /\ signalled = true)
  /\ (snd (main fails signalled) = Blocked
      <-> (forall c, fails c = None) /\ signalled = false).
Proof.
  destruct (calls_all_or_some fails) as [Hall|[c [err Hc]]].
  - unfold main. rewrite main_startup by assumption.
    destruct signalled; cbn [snd]; repeat split;
      try discriminate; try assumption; try reflexivity;
      try (intros [c Hc]; elim Hc; apply Hall);
      try (intros [_ H]; discriminate).
  - destruct (main_fatal_closes_nothing fails signalled c err Hc) as [_ ->].
    repeat split; try discriminate; try assumption;
      try (intros _; exists c; congruence);
      try (intros [H _]; rewrite H in Hc; discriminate).
Qed.

(** X12.  Release is all or nothing.  In every run [main] either closes
    nothing, or closes each of the nine resources exactly once, in the
    reverse of the order of acquisition; the latter happens only when the
    whole startup succeeded and the signal arrived.  It never closes a
    resource it has not opened. *)
Theorem release_is_all_or_nothing
    (fails : Call -> option error) (signalled : bool) :
  (closed (fst (main fails signalled)) = []
   \/ (closed (fst (main fails signalled)) = rev acquisition_order
       /\ opened (fst (main fails signalled)) = acquisition_order
       /\ (forall c, fails c = None) /\ signalled = true))
  /\ incl (closed (fst (main fails signalled)))
       (opened (fst (main fails signalled)))
  /\ NoDup (closed (fst (main fails signalled))).
Proof.
  destruct (calls_all_or_some fails) as [Hall|[c [err Hc]]].
  - unfold main. rewrite main_startup by assumption.
    destruct signalled; cbn [fst trace deferred].
    + split; [right; repeat split; assumption|]. split.
      * intros r Hin. cbn in Hin |- *. tauto.
      * cbn. repeat constructor; cbn; intuition discriminate.
    + split; [left; reflexivity|]. split.
      * intros r Hin. destruct Hin.
      * constructor.
  - destruct (main_fatal_closes_nothing fails signalled c err Hc) as [-> _].
    split; [left; reflexivity|]. split; [intros r []|constructor].
Qed.

(** X13.  Startup is sequential and complete before any loop runs.  The
    resources [main] has opened are always an initial part of the order of
    acquisition, each opened by a call that succeeded; the three read loops
    are started, in the order messages, connection closes, latencies, only
    when all nine resources are open, and not at all when a call fails. *)
Theorem loops_start_after_startup
    (fails : Call -> option error) (signalled : bool) :
  (exists k, opened (fst (main fails signalled)) = firstn k acquisition_order)
  /\ (forall r, In r (opened (fst (main fails signalled))) ->
                fails (Open r) = None)
  /\ (started (fst (main fails signalled)) = []
      \/ (started (fst (main fails signalled))
          = [SipMessages; TcpClose; TcpLatency]
          /\ opened (fst (main fails signalled)) = acquisition_order))
  /\ (started (fst (main fails signalled)) = []
      <-> exists c, fails c <> None).
Proof.
  destruct (calls_all_or_some fails) as [Hall|[c [err Hc]]].
  - unfold main. rewrite main_startup by assumption.
    destruct signalled; cbn [fst trace deferred];
      (split; [exists 9%nat; reflexivity|]);
      (split; [intros r _; apply Hall|]);
      (split; [right; split; reflexivity|]);
      (split; [discriminate|intros [c Hc]; elim Hc; apply Hall]).
  - destruct (main_fatal_trace fails signalled c err Hc)
      as [Hs [Hk [Hin _]]].
    split; [exact Hk|]. split; [exact Hin|]. split; [left; exact Hs|].
    split; [intros _; exists c; congruence|intros _; exact Hs].
Qed.

(** ** The names and the message body in the event lines *)










